(** * ImpactX dashboard: distribution parameter validation and script export

    A shallow embedding of
    - [src/python/impactx/dashboard/Input/distributionParameters/distributionFunctions.py]
      ([DistributionFunctions.convert_distribution_parameters_to_valid_type]) and
    - [src/python/impactx/dashboard/Toolbar/exportTemplate.py]
      ([build_distribution_list], [build_lattice_list], [input_file]),
    together with the Python builtins these functions call ([float], [str],
    [==], [str.join], dictionary insertion).

    Python strings are modelled by [string] (the ASCII range is exact),
    Python floats by IEEE binary64 values ([spec_float] with precision 53),
    exceptions by an error monad, the dashboard state by a record that is
    passed explicitly to every function that reads the global [state]. *)

From Stdlib Require Import ZArith String Ascii List Bool Lia.
From Stdlib Require Import Floats.SpecFloat.
From Stdlib Require Import DecimalString.
From stdpp Require Import base option list strings gmap.

Local Open Scope Z_scope.

(* ===================================================================== *)
(** * Characters and strings *)
(* ===================================================================== *)

Definition chr (n : nat) : ascii := ascii_of_nat n.
Definition ord (c : ascii) : Z := Z.of_nat (nat_of_ascii c).

Definition is_digit (c : ascii) : bool := (48 <=? ord c) && (ord c <=? 57).
Definition digit_val (c : ascii) : Z := ord c - 48.

(** [Py_ISSPACE]: space, and the control characters 9 to 13. *)
Definition is_space (c : ascii) : bool :=
  (ord c =? 32) || ((9 <=? ord c) && (ord c <=? 13)).

Definition to_lower (c : ascii) : ascii :=
  if (65 <=? ord c) && (ord c <=? 90) then chr (nat_of_ascii c + 32) else c.

Definition ascii_eqb (a b : ascii) : bool := Ascii.eqb a b.

Definition chars (s : string) : list ascii := list_ascii_of_string s.
Definition str_of_chars (l : list ascii) : string := string_of_list_ascii l.

(** [sep.join(items)] *)
Fixpoint str_join (sep : string) (items : list string) : string :=
  match items with
  | [] => ""
  | x :: rest =>
      match rest with
      | [] => x
      | _ :: _ => x +:+ sep +:+ str_join sep rest
      end
  end.

(** [s * n] *)
Fixpoint str_repeat (s : string) (n : nat) : string :=
  match n with
  | O => ""
  | S n' => s +:+ str_repeat s n'
  end.

(** [str(z)] for an [int] *)
Definition str_of_int (z : Z) : string := NilZero.string_of_int (Z.to_int z).

(* ===================================================================== *)
(** * Python floats: IEEE binary64 *)
(* ===================================================================== *)

Definition prec64 : Z := 53.
Definition emax64 : Z := 1024.

Definition float_zero : spec_float := S754_zero false.

Definition float_eqb (x y : spec_float) : bool :=
  match x, y with
  | S754_zero a, S754_zero b => Bool.eqb a b
  | S754_infinity a, S754_infinity b => Bool.eqb a b
  | S754_nan, S754_nan => true
  | S754_finite a m e, S754_finite b n f => Bool.eqb a b && Pos.eqb m n && Z.eqb e f
  | _, _ => false
  end.

(** The binary64 value nearest to [(-1)^s * D * 10^k] (ties to even);
    overflow gives an infinity, underflow a zero, as [strtod] does. *)
Definition float_of_decimal (s : bool) (D k : Z) : spec_float :=
  match D with
  | Zpos _ =>
      if 0 <=? k
      then binary_normalize prec64 emax64 (cond_Zopp s (D * 10 ^ k)) 0 s
      else let '(q, e, l) := SFdiv_core_binary prec64 emax64 D 0 (10 ^ (- k)) 0 in
           binary_round_aux prec64 emax64 s q e l
  | _ => S754_zero s
  end.

(** ** [float(str)]: the grammar accepted by [float_from_string] *)

(** Underscores may only stand between two digits; they are removed. *)
Fixpoint remove_underscores (prev : ascii) (l : list ascii) : option (list ascii) :=
  match l with
  | [] => if ascii_eqb prev "_" then None else Some []
  | c :: l' =>
      if ascii_eqb c "_"
      then (if is_digit prev then remove_underscores c l' else None)
      else if ascii_eqb prev "_" && negb (is_digit c) then None
      else option_map (cons c) (remove_underscores c l')
  end.

Fixpoint strip_left (l : list ascii) : list ascii :=
  match l with
  | c :: l' => if is_space c then strip_left l' else l
  | [] => []
  end.

Definition strip (l : list ascii) : list ascii :=
  rev (strip_left (rev (strip_left l))).

(** Reads a run of digits: the accumulated value, how many were read, the rest. *)
Fixpoint take_digits (l : list ascii) (acc count : Z) : Z * Z * list ascii :=
  match l with
  | c :: l' =>
      if is_digit c then take_digits l' (10 * acc + digit_val c) (count + 1)
      else (acc, count, l)
  | [] => (acc, count, [])
  end.

Definition take_sign (l : list ascii) : bool * list ascii :=
  match l with
  | c :: l' =>
      if ascii_eqb c "-" then (true, l')
      else if ascii_eqb c "+" then (false, l')
      else (false, l)
  | [] => (false, [])
  end.

(** [digits [. digits] [e [sign] digits]] or [. digits [e ...]], read to the
    end of the text: the decimal mantissa and the power of ten. *)
Definition parse_decimal (l : list ascii) : option (Z * Z) :=
  let '(ip, ni, r1) := take_digits l 0 0 in
  let '(D, nf, r2) :=
    match r1 with
    | c :: r => if ascii_eqb c "." then take_digits r ip 0 else (ip, 0, r1)
    | [] => (ip, 0, r1)
    end in
  if ni + nf =? 0 then None
  else
    match r2 with
    | [] => Some (D, - nf)
    | c :: r3 =>
        if ascii_eqb (to_lower c) "e" then
          let '(eneg, r4) := take_sign r3 in
          let '(ev, ne, r5) := take_digits r4 0 0 in
          match r5 with
          | [] => if ne =? 0 then None else Some (D, cond_Zopp eneg ev - nf)
          | _ :: _ => None
          end
        else None
    end.

Definition parse_inf_or_nan (s : bool) (l : list ascii) : option spec_float :=
  let w := str_of_chars (map to_lower l) in
  if String.eqb w "inf" || String.eqb w "infinity" then Some (S754_infinity s)
  else if String.eqb w "nan" then Some S754_nan
  else None.

(** [float(s)] for a string [s]; [None] stands for [ValueError]. *)
Definition float_of_str (s : string) : option spec_float :=
  match remove_underscores "000" (chars s) with
  | None => None
  | Some l =>
      let '(neg, body) := take_sign (strip l) in
      match parse_inf_or_nan neg body with
      | Some x => Some x
      | None =>
          match parse_decimal body with
          | Some (D, k) => Some (float_of_decimal neg D k)
          | None => None
          end
      end
  end.

(** [float(z)] for an [int] [z]; [None] stands for [OverflowError]. *)
Definition float_of_int (z : Z) : option spec_float :=
  match binary_normalize prec64 emax64 z 0 false with
  | S754_infinity _ => None
  | x => Some x
  end.

(** ** [repr(float)]: the shortest decimal text that reads back as the float *)

(** A positive finite float [m * 2^e] as a fraction. *)
Definition float_fraction (m : positive) (e : Z) : Z * Z :=
  if 0 <=? e then (Zpos m * 2 ^ e, 1) else (Zpos m, 2 ^ (- e)).

(** [num / den < 10^p] *)
Definition below_pow10 (num den p : Z) : bool :=
  if 0 <=? p then num <? den * 10 ^ p else num * 10 ^ (- p) <? den.

(** The least [p] at or above the start with [num / den < 10^p]. *)
Fixpoint search_pow10 (fuel : nat) (num den p : Z) : Z :=
  match fuel with
  | O => p
  | S fuel' => if below_pow10 num den p then p else search_pow10 fuel' num den (p + 1)
  end.

(** The least [p] with [num / den < 10^p]: the search starts from a power
    of ten that the bit lengths show to lie below the fraction. *)
Definition decimal_point (num den : Z) : Z :=
  let bits := Z.log2 num - Z.log2 den - 1 in
  search_pow10 8 num den (bits * 30103 / 100000 - 1).

(** The decimals [c * 10^k] with [n] digits next to [num / den], nearest first. *)
Definition decimal_candidates (num den p : Z) (n : Z) : list (Z * Z) :=
  let k := p - n in
  let '(a, b) := if 0 <=? k then (num, den * 10 ^ k) else (num * 10 ^ (- k), den) in
  let lo := a / b in
  let r := a mod b in
  if r =? 0 then [(lo, k)]
  else
    match 2 * r ?= b with
    | Lt => [(lo, k); (lo + 1, k)]
    | Gt => [(lo + 1, k); (lo, k)]
    | Eq => if Z.even lo then [(lo, k); (lo + 1, k)] else [(lo + 1, k); (lo, k)]
    end.

Definition reads_back (x : spec_float) (c : Z * Z) : bool :=
  float_eqb (float_of_decimal false (fst c) (snd c)) x.

(** The first digit count from [n] on, [fuel] counts tried, that has a
    candidate reading back as [x]; with no fuel left, the nearest candidate. *)
Fixpoint shortest_decimal (fuel : nat) (x : spec_float) (num den p n : Z) : Z * Z :=
  let cs := decimal_candidates num den p n in
  match fuel with
  | O => hd (0, 0) cs
  | S fuel' =>
      match List.find (reads_back x) cs with
      | Some c => c
      | None => shortest_decimal fuel' x num den p (n + 1)
      end
  end.

Fixpoint strip_zeros (fuel : nat) (c k : Z) : Z * Z :=
  match fuel with
  | O => (c, k)
  | S fuel' => if (c mod 10 =? 0) && negb (c =? 0) then strip_zeros fuel' (c / 10) (k + 1) else (c, k)
  end.

(** The digits of the shortest decimal and the position of the decimal
    point relative to them: the value is [0.digits * 10^decpt]. *)
Definition float_digits (m : positive) (e : Z) : string * Z :=
  let '(num, den) := float_fraction m e in
  let p := decimal_point num den in
  let '(c, k) := shortest_decimal 16 (S754_finite false m e) num den p 1 in
  let '(c, k) := strip_zeros 17 c k in
  let ds := str_of_int c in
  (ds, k + Z.of_nat (String.length ds)).

Definition zeros (n : Z) : string := str_repeat "0" (Z.to_nat n).

Definition str_take (n : Z) (s : string) : string := substring 0 (Z.to_nat n) s.
Definition str_drop (n : Z) (s : string) : string :=
  substring (Z.to_nat n) (String.length s - Z.to_nat n) s.

(** Format code ['r'] with [Py_DTSF_ADD_DOT_0]. *)
Definition format_float_digits (ds : string) (decpt : Z) : string :=
  let n := Z.of_nat (String.length ds) in
  if (decpt <=? -4) || (16 <? decpt) then
    let ex := decpt - 1 in
    let mant := if n =? 1 then ds else str_take 1 ds +:+ "." +:+ str_drop 1 ds in
    let exs := str_of_int (Z.abs ex) in
    mant +:+ "e" +:+ (if ex <? 0 then "-" else "+")
         +:+ (if Z.abs ex <? 10 then "0" else "") +:+ exs
  else if decpt <=? 0 then "0." +:+ zeros (- decpt) +:+ ds
  else if n <=? decpt then ds +:+ zeros (decpt - n) +:+ ".0"
  else str_take decpt ds +:+ "." +:+ str_drop decpt ds.

Definition float_repr (x : spec_float) : string :=
  match x with
  | S754_nan => "nan"
  | S754_infinity s => if s then "-inf" else "inf"
  | S754_zero s => if s then "-0.0" else "0.0"
  | S754_finite s m e =>
      let '(ds, decpt) := float_digits m e in
      (if s then "-" else "") +:+ format_float_digits ds decpt
  end.

(* ===================================================================== *)
(** * Python values, exceptions, dictionaries *)
(* ===================================================================== *)

(** The values the dashboard state holds. *)
#[warnings="-register-all"]
Inductive pyval : Type :=
  | PyNone
  | PyInt (z : Z)
  | PyFloat (x : spec_float)
  | PyStr (s : string)
  | PyList (items : list pyval).

(** The builtin exceptions the modelled code can raise. *)
Inductive pyexn : Type := KeyError | TypeError | ValueError | OverflowError.

Definition exn_name (e : pyexn) : string :=
  match e with
  | KeyError => "KeyError"
  | TypeError => "TypeError"
  | ValueError => "ValueError"
  | OverflowError => "OverflowError"
  end.

Inductive result (A : Type) : Type :=
  | Ok (a : A)
  | Raise (e : pyexn).
Arguments Ok {A} a.
Arguments Raise {A} e.

#[global] Instance result_ret : MRet result := fun A a => Ok a.
#[global] Instance result_bind : MBind result :=
  fun A B f r => match r with Ok a => f a | Raise e => Raise e end.

(** [x == z] for a float [x] and an int [z]: the exact values are compared. *)
Definition float_eq_int (x : spec_float) (z : Z) : bool :=
  match x with
  | S754_zero _ => z =? 0
  | S754_finite s m e =>
      if 0 <=? e then z =? cond_Zopp s (Zpos m * 2 ^ e)
      else z * 2 ^ (- e) =? cond_Zopp s (Zpos m)
  | _ => false
  end.

(** [a == b] *)
Fixpoint py_eqb (a b : pyval) : bool :=
  match a, b with
  | PyNone, PyNone => true
  | PyInt x, PyInt y => x =? y
  | PyInt z, PyFloat x => float_eq_int x z
  | PyFloat x, PyInt z => float_eq_int x z
  | PyFloat x, PyFloat y => SFeqb x y
  | PyStr s, PyStr t => String.eqb s t
  | PyList l, PyList l' =>
      (fix all_eqb (l l' : list pyval) : bool :=
         match l, l' with
         | [], [] => true
         | x :: r, y :: r' => py_eqb x y && all_eqb r r'
         | _, _ => false
         end) l l'
  | _, _ => false
  end.

(** Lists are the unhashable values: they cannot be dictionary keys. *)
Definition py_hashable (v : pyval) : bool :=
  match v with PyList _ => false | _ => true end.

(** ** [repr] and [str] *)

Definition dquote : ascii := chr 34.
Definition squote : ascii := chr 39.
Definition backslash : ascii := chr 92.

Definition hex_digit (n : Z) : ascii :=
  if n <? 10 then chr (Z.to_nat (48 + n)) else chr (Z.to_nat (87 + n)).

Definition repr_char (quote c : ascii) : string :=
  if ascii_eqb c quote || ascii_eqb c backslash then String backslash (String c "")
  else if ord c =? 9 then String backslash "t"
  else if ord c =? 10 then String backslash "n"
  else if ord c =? 13 then String backslash "r"
  else if (ord c <? 32) || (ord c =? 127)
  then String backslash (String "x" (String (hex_digit (ord c / 16)) (String (hex_digit (ord c mod 16)) "")))
  else String c "".

(** [repr(s)] for a string: single quotes, unless the text has a single
    quote and no double quote. *)
Definition str_repr (s : string) : string :=
  let cs := chars s in
  let quote :=
    if existsb (ascii_eqb squote) cs && negb (existsb (ascii_eqb dquote) cs)
    then dquote else squote in
  String quote (String.concat "" (map (repr_char quote) cs)) +:+ String quote "".

Fixpoint py_repr (v : pyval) : string :=
  match v with
  | PyNone => "None"
  | PyInt z => str_of_int z
  | PyFloat x => float_repr x
  | PyStr s => str_repr s
  | PyList l => "[" +:+ str_join ", " (map py_repr l) +:+ "]"
  end.

(** [str(v)], which is what a replacement field of an f-string renders. *)
Definition py_str (v : pyval) : string :=
  match v with
  | PyStr s => s
  | _ => py_repr v
  end.

(** [float(v)] *)
Definition py_float (v : pyval) : result spec_float :=
  match v with
  | PyStr s => match float_of_str s with Some x => Ok x | None => Raise ValueError end
  | PyInt z => match float_of_int z with Some x => Ok x | None => Raise OverflowError end
  | PyFloat x => Ok x
  | PyNone => Raise TypeError
  | PyList _ => Raise TypeError
  end.

(** ** Dictionaries *)

(** A record of the state (a parameter record, a lattice element): a
    dictionary with string keys that is only read. [d[k]] raises [KeyError]
    for a missing key. *)
Definition getitem (d : gmap string pyval) (k : string) : result pyval :=
  match d !! k with
  | Some v => Ok v
  | None => Raise KeyError
  end.

(** The dictionary a comprehension builds: insertion ordered. A store to a
    key that is present keeps the key's place and replaces its value. *)
Fixpoint dict_store {V : Type} (d : list (pyval * V)) (k : pyval) (v : V) : list (pyval * V) :=
  match d with
  | [] => [(k, v)]
  | (k', v') :: d' =>
      if py_eqb k' k then (k', v) :: d' else (k', v') :: dict_store d' k v
  end.

(** [d[k] = v]: the key is hashed first. *)
Definition dict_setitem {V : Type} (d : list (pyval * V)) (k : pyval) (v : V)
  : result (list (pyval * V)) :=
  if py_hashable k then Ok (dict_store d k v) else Raise TypeError.

Fixpoint dict_get {V : Type} (d : list (pyval * V)) (k : pyval) : option V :=
  match d with
  | [] => None
  | (k', v') :: d' => if py_eqb k' k then Some v' else dict_get d' k
  end.

(* ===================================================================== *)
(** * The dashboard state *)
(* ===================================================================== *)

(** The fields of the shared [state] object that the export reads. *)
Record State : Type := {
  particle_shape : pyval;
  kin_energy_MeV : pyval;
  bunch_charge_C : pyval;
  npart : pyval;
  charge_qe : pyval;
  mass_MeV : pyval;
  selectedDistribution : pyval;
  selectedDistributionType : pyval;
  selectedDistributionParameters : list (gmap string pyval);
  selectedLatticeList : list (gmap string pyval)
}.

(* ===================================================================== *)
(** * distributionFunctions.py *)
(* ===================================================================== *)

Module DistributionFunctions.

(** The filter of the comprehension,
    [param_is_valid := param["parameter_error_message"] == []]. *)
Definition filter_expr (param : gmap string pyval) : result bool :=
  msg ← getitem param "parameter_error_message";
  Ok (py_eqb msg (PyList [])).

(** The value expression,
    [float(param["parameter_default_value"]) if param_is_valid else 0.0],
    with the constant of the [else] branch as [else_value]. *)
Definition value_expr (else_value : spec_float)
    (param : gmap string pyval) (param_is_valid : bool) : result spec_float :=
  if param_is_valid
  then v ← getitem param "parameter_default_value"; py_float v
  else Ok else_value.

(** One round of the comprehension: the filter binds [param_is_valid];
    when it holds the key is evaluated, then the value, and the pair is stored. *)
Definition comprehension_step (else_value : spec_float)
    (acc : list (pyval * spec_float)) (param : gmap string pyval)
  : result (list (pyval * spec_float)) :=
  param_is_valid ← filter_expr param;
  if param_is_valid : bool
  then
    key ← getitem param "parameter_name";
    value ← value_expr else_value param param_is_valid;
    dict_setitem acc key value
  else Ok acc.

Fixpoint comprehension (else_value : spec_float)
    (acc : list (pyval * spec_float)) (params : list (gmap string pyval))
  : result (list (pyval * spec_float)) :=
  match params with
  | [] => Ok acc
  | param :: rest =>
      acc' ← comprehension_step else_value acc param;
      comprehension else_value acc' rest
  end.

Definition convert_distribution_parameters_to_valid_type (state : State)
  : result (list (pyval * spec_float)) :=
  let parameter_input :=
    comprehension float_zero [] (selectedDistributionParameters state) in
  parameter_input.

End DistributionFunctions.

(* ===================================================================== *)
(** * exportTemplate.py *)
(* ===================================================================== *)

Definition nl : string := String (chr 10) "".

Definition is_twiss (state : State) : bool :=
  py_eqb (selectedDistributionType state) (PyStr "Twiss").

Definition parameter_line (indentation : string) (item : pyval * spec_float) : string :=
  indentation +:+ py_str (fst item) +:+ "=" +:+ float_repr (snd item).

Definition build_distribution_list (state : State) : result string :=
  let distribution_name := selectedDistribution state in
  parameters ← DistributionFunctions.convert_distribution_parameters_to_valid_type state;
  let indentation := str_repeat " " (if is_twiss state then 8 else 4) in
  let distribution_parameters :=
    str_join ("," +:+ nl) (map (parameter_line indentation) parameters) in
  if is_twiss state
  then Ok ("distr = distribution." +:+ py_str distribution_name +:+ "(" +:+ nl
           +:+ "    **twiss(" +:+ nl
           +:+ distribution_parameters +:+ "," +:+ nl
           +:+ "    )" +:+ nl
           +:+ ")")
  else Ok ("distr = distribution." +:+ py_str distribution_name +:+ "(" +:+ nl
           +:+ distribution_parameters +:+ "," +:+ nl
           +:+ ")").

Section LatticeExport.

(** [parameter_input_checker_for_lattice] lives in
    [Input/latticeConfiguration/latticeMain.py]: it maps a lattice element
    to the dictionary of its checked parameters, whose items are rendered. *)
Variable parameter_input_checker_for_lattice :
  gmap string pyval -> result (list (pyval * pyval)).

Definition argument_text (item : pyval * pyval) : string :=
  py_str (fst item) +:+ "=" +:+ py_str (snd item).

(** One item of the generator of [build_lattice_list]. *)
Definition element_call (element : gmap string pyval) : result string :=
  name ← getitem element "name";
  parameters ← parameter_input_checker_for_lattice element;
  Ok ("elements." +:+ py_str name +:+ "("
      +:+ str_join ", " (map argument_text parameters)
      +:+ ")").

Definition build_lattice_list (state : State) : result string :=
  calls ← mapM element_call (selectedLatticeList state);
  let lattice_elements := str_join ("," +:+ nl +:+ "    ") calls in
  Ok ("lattice_configuration = [" +:+ nl +:+ "    " +:+ lattice_elements +:+ nl +:+ "]").

(** The lines of the template of [input_file], the two rendered blocks
    being [distribution] and [lattice]. *)
Definition script_lines (state : State) (distribution lattice : string) : list string :=
  [ "";
    "from impactx import ImpactX, distribution, elements, twiss";
    "";
    "sim = ImpactX()";
    "";
    "sim.particle_shape = " +:+ py_str (particle_shape state);
    "sim.space_charge = False";
    "sim.csr = False";
    "sim.slice_step_diagnostics = True";
    "";
    "sim.init_grids()";
    "";
    "# Initialize particle beam";
    "kin_energy_MeV = " +:+ py_str (kin_energy_MeV state);
    "bunch_charge_C = " +:+ py_str (bunch_charge_C state);
    "npart = " +:+ py_str (npart state);
    "";
    "# Reference particle";
    "ref = sim.particle_container().ref_particle()";
    "ref.set_charge_qe(" +:+ py_str (charge_qe state) +:+ ").set_mass_MeV("
      +:+ py_str (mass_MeV state) +:+ ").set_kin_energy_MeV(kin_energy_MeV)";
    "";
    distribution;
    "sim.add_particles(bunch_charge_C, distr, npart)";
    "";
    lattice;
    "sim.lattice.extend(lattice_configuration)";
    "";
    "# Simulate";
    "sim.track_particles()";
    "";
    "sim.finalize()";
    "" ].

Definition input_file (state : State) : result string :=
  distribution ← build_distribution_list state;
  lattice ← build_lattice_list state;
  let script := str_join nl (script_lines state distribution lattice) in
  Ok script.

End LatticeExport.

(* ===================================================================== *)
(** * Reading generated text back *)
(* ===================================================================== *)

(** The part of the Python grammar that the generated blocks use: an
    assignment whose right-hand side is a call [a.b(args)] or a list of such
    calls. Arguments are keyword arguments [name=value] or an unpacked call
    [**f(args)]; a trailing comma is allowed, an empty item is not. *)

Inductive token : Type :=
  | TName (s : string)
  | TNumber (s : string)
  | TLPar | TRPar | TLBrack | TRBrack
  | TComma | TEq | TDot | TStars | TMinus | TPlus
  | TBad (c : ascii).

Definition is_letter (c : ascii) : bool :=
  ((65 <=? ord c) && (ord c <=? 90)) || ((97 <=? ord c) && (ord c <=? 122)).
Definition is_name_start (c : ascii) : bool := is_letter c || ascii_eqb c "_".
Definition is_name_char (c : ascii) : bool := is_name_start c || is_digit c.

Fixpoint span (f : ascii -> bool) (l : list ascii) : list ascii * list ascii :=
  match l with
  | c :: l' => if f c then let '(a, b) := span f l' in (c :: a, b) else ([], l)
  | [] => ([], [])
  end.

Definition is_digit_or_underscore (c : ascii) : bool := is_digit c || ascii_eqb c "_".

(** The exponent of a number, taken only when digits follow. *)
Definition scan_exponent (l : list ascii) : list ascii * list ascii :=
  match l with
  | c :: r =>
      if ascii_eqb (to_lower c) "e" then
        let '(sign, r') :=
          match r with
          | d :: r0 => if ascii_eqb d "-" || ascii_eqb d "+" then ([d], r0) else ([], r)
          | [] => ([], r)
          end in
        let '(ds, rest) := span is_digit_or_underscore r' in
        match ds with
        | [] => ([], l)
        | _ :: _ => (c :: sign ++ ds, rest)
        end
      else ([], l)
  | [] => ([], [])
  end.

Definition scan_number (l : list ascii) : list ascii * list ascii :=
  let '(ip, r1) := span is_digit_or_underscore l in
  let '(fp, r2) :=
    match r1 with
    | c :: r => if ascii_eqb c "." then let '(ds, r') := span is_digit_or_underscore r in (c :: ds, r')
                else ([], r1)
    | [] => ([], r1)
    end in
  let '(ex, r3) := scan_exponent r2 in
  (ip ++ fp ++ ex, r3).

Definition starts_number (c : ascii) (rest : list ascii) : bool :=
  is_digit c || (ascii_eqb c "." && match rest with d :: _ => is_digit d | [] => false end).

Fixpoint tokenize (fuel : nat) (l : list ascii) : list token :=
  match fuel with
  | O => []
  | S fuel' =>
      match l with
      | [] => []
      | c :: r =>
          if is_space c then tokenize fuel' r
          else if is_name_start c then
            let '(w, rest) := span is_name_char l in TName (str_of_chars w) :: tokenize fuel' rest
          else if starts_number c r then
            let '(w, rest) := scan_number l in TNumber (str_of_chars w) :: tokenize fuel' rest
          else if ascii_eqb c "(" then TLPar :: tokenize fuel' r
          else if ascii_eqb c ")" then TRPar :: tokenize fuel' r
          else if ascii_eqb c "[" then TLBrack :: tokenize fuel' r
          else if ascii_eqb c "]" then TRBrack :: tokenize fuel' r
          else if ascii_eqb c "," then TComma :: tokenize fuel' r
          else if ascii_eqb c "=" then TEq :: tokenize fuel' r
          else if ascii_eqb c "." then TDot :: tokenize fuel' r
          else if ascii_eqb c "-" then TMinus :: tokenize fuel' r
          else if ascii_eqb c "+" then TPlus :: tokenize fuel' r
          else if ascii_eqb c "*" then
            match r with
            | d :: r' => if ascii_eqb d "*" then TStars :: tokenize fuel' r' else TBad c :: tokenize fuel' r
            | [] => [TBad c]
            end
          else TBad c :: tokenize fuel' r
      end
  end.

Definition tokens_of (text : string) : list token :=
  tokenize (String.length text) (chars text).

(** The value of an argument: a number, or a name such as [inf]. *)
Inductive argument_value : Type :=
  | VNumber (x : spec_float)
  | VName (s : string).

(** The value of a decimal literal, as a float. *)
Definition number_value (t : string) : option spec_float :=
  l ← remove_underscores "000" (chars t);
  '(D, k) ← parse_decimal l;
  Some (float_of_decimal false D k).

Definition parse_value (toks : list token) : option (argument_value * list token) :=
  match toks with
  | TNumber t :: r => x ← number_value t; Some (VNumber x, r)
  | TMinus :: TNumber t :: r => x ← number_value t; Some (VNumber (SFopp x), r)
  | TPlus :: TNumber t :: r => x ← number_value t; Some (VNumber x, r)
  | TName n :: r => Some (VName n, r)
  | _ => None
  end.

(** The arguments of a call, read after its opening parenthesis up to and
    including the closing one; an unpacked call contributes its own
    keyword arguments. *)
Fixpoint parse_args (fuel : nat) (toks : list token)
  : option (list (string * argument_value) * list token) :=
  match fuel with
  | O => None
  | S fuel' =>
      match toks with
      | TRPar :: r => Some ([], r)
      | _ =>
          '(items, r) ←
            match toks with
            | TName k :: TEq :: r0 => '(v, r1) ← parse_value r0; Some ([(k, v)], r1)
            | TStars :: TName _ :: TLPar :: r0 => parse_args fuel' r0
            | _ => None
            end;
          match r with
          | TComma :: r' => '(more, r'') ← parse_args fuel' r'; Some (items ++ more, r'')
          | TRPar :: r' => Some (items, r')
          | _ => None
          end
      end
  end.

(** [target = a.b(args)], with nothing after it. *)
Definition parse_call_statement (text : string) : option (list (string * argument_value)) :=
  let toks := tokens_of text in
  match toks with
  | TName _ :: TEq :: TName _ :: TDot :: TName _ :: TLPar :: r =>
      '(items, rest) ← parse_args (length toks) r;
      match rest with [] => Some items | _ :: _ => None end
  | _ => None
  end.

(** The items of a list display, read after the opening bracket. *)
Fixpoint parse_call_list (fuel : nat) (toks : list token) : option (list token) :=
  match fuel with
  | O => None
  | S fuel' =>
      match toks with
      | TRBrack :: r => Some r
      | TName _ :: TDot :: TName _ :: TLPar :: r0 =>
          '(_, r) ← parse_args (length r0) r0;
          match r with
          | TComma :: r' => parse_call_list fuel' r'
          | TRBrack :: r' => Some r'
          | _ => None
          end
      | _ => None
      end
  end.

(** [target = [call, ...]], with nothing after it. *)
Definition parse_list_statement (text : string) : bool :=
  let toks := tokens_of text in
  match toks with
  | TName _ :: TEq :: TLBrack :: r =>
      match parse_call_list (length toks) r with
      | Some [] => true
      | _ => false
      end
  | _ => false
  end.

(** A generated block is accepted when it reads as one of the two statements. *)
Definition statement_ok (text : string) : bool :=
  match parse_call_statement text with
  | Some _ => true
  | None => parse_list_statement text
  end.

(** The keyword mapping of a constructor call: every value must be a number. *)
Definition reparse_keyword_mapping (text : string) : option (list (pyval * spec_float)) :=
  items ← parse_call_statement text;
  mapM (fun item : string * argument_value =>
          match snd item with
          | VNumber x => Some (PyStr (fst item), x)
          | VName _ => None
          end) items.

(* ===================================================================== *)
(** * Vocabulary of the statements *)
(* ===================================================================== *)

(** A parameter record as the data model describes it: the three fields
    are present and the name is a string. *)
Definition wf_param (param : gmap string pyval) : Prop :=
  (exists n, param !! "parameter_name" = Some (PyStr n)) /\
  is_Some (param !! "parameter_default_value") /\
  is_Some (param !! "parameter_error_message").

(** The record passed validation: its list of error messages is empty. *)
Definition param_valid (param : gmap string pyval) : Prop :=
  param !! "parameter_error_message" = Some (PyList []).

Definition param_validb (param : gmap string pyval) : bool :=
  match param !! "parameter_error_message" with
  | Some v => py_eqb v (PyList [])
  | None => false
  end.

(** [float] succeeds on the default value of the record. *)
Definition param_parses (param : gmap string pyval) : Prop :=
  exists v x, param !! "parameter_default_value" = Some v /\ py_float v = Ok x.

(** The names of the records that passed validation, in input order. *)
Definition valid_names (params : list (gmap string pyval)) : list pyval :=
  omap (fun param => if param_validb param then param !! "parameter_name" else None) params.

(** What a record contributes to the mapping: the pair of its name and of
    the float read from its default value, when it passed validation. *)
Definition param_item (param : gmap string pyval) : option (pyval * spec_float) :=
  if param_validb param then
    match param !! "parameter_name", param !! "parameter_default_value" with
    | Some k, Some v =>
        match py_float v with
        | Ok x => Some (k, x)
        | Raise _ => None
        end
    | _, _ => None
    end
  else None.

(** The stores of a list of pairs, one after the other. *)
Definition store_all {V : Type} (acc : list (pyval * V)) (items : list (pyval * V))
  : list (pyval * V) :=
  fold_left (fun d item => dict_store d (fst item) (snd item)) items acc.

Definition is_str (v : pyval) : Prop := exists s, v = PyStr s.

(** [k in keys], with the equality of dictionary keys. *)
Definition key_in (k : pyval) (keys : list pyval) : bool :=
  existsb (fun k' => py_eqb k' k) keys.

(** The keys of a dictionary after a store to [k]. *)
Definition add_key (keys : list pyval) (k : pyval) : list pyval :=
  if key_in k keys then keys else keys ++ [k].

(** Each key once, at the place of its first occurrence. *)
Fixpoint keep_first (keys : list pyval) : list pyval :=
  match keys with
  | [] => []
  | k :: rest => k :: filter (fun k' => py_eqb k k' = false) (keep_first rest)
  end.

(** The texts [pats] occur in [s] one after the other, without overlap. *)
Fixpoint in_order (pats : list string) (s : string) : Prop :=
  match pats with
  | [] => True
  | p :: rest => exists before after, s = before +:+ p +:+ after /\ in_order rest after
  end.

(** The result is an exception of the class named [cls]. *)
Definition raises_class {A : Type} (cls : string) (r : result A) : Prop :=
  exists e, r = Raise e /\ exn_name e = cls.

(** The state with other parameter records. *)
Definition with_parameters (state : State) (params : list (gmap string pyval)) : State :=
  {| particle_shape := particle_shape state;
     kin_energy_MeV := kin_energy_MeV state;
     bunch_charge_C := bunch_charge_C state;
     npart := npart state;
     charge_qe := charge_qe state;
     mass_MeV := mass_MeV state;
     selectedDistribution := selectedDistribution state;
     selectedDistributionType := selectedDistributionType state;
     selectedDistributionParameters := params;
     selectedLatticeList := selectedLatticeList state |}.

(** ** Well-formed validated mappings *)

(** Letters, digits and underscores, no digit first. *)
Definition name_shape (s : string) : bool :=
  match chars s with
  | c :: r => is_name_start c && forallb is_name_char r
  | [] => false
  end.

(** The keywords of Python, which are not names. *)
Definition keywords : list string :=
  [ "False"; "None"; "True"; "and"; "as"; "assert"; "async"; "await"; "break";
    "class"; "continue"; "def"; "del"; "elif"; "else"; "except"; "finally";
    "for"; "from"; "global"; "if"; "import"; "in"; "is"; "lambda"; "nonlocal";
    "not"; "or"; "pass"; "raise"; "return"; "try"; "while"; "with"; "yield" ].

(** A name of Python in ASCII: letters, digits and underscores, no digit
    first, no keyword. *)
Definition identifier (s : string) : bool :=
  name_shape s && negb (existsb (String.eqb s) keywords).

(** The text [repr(x)] is a number that reads back as [x]: the property
    [float(repr(x)) == x] of the finite floats. An infinity and a NaN are
    written as the names [inf] and [nan] and do not have it. *)
Definition value_reads_back (x : spec_float) : Prop :=
  parse_value (tokens_of (float_repr x)) = Some (VNumber x, []).

(** A validated mapping as a well-formed configuration has it: at least one
    entry, names as keys, and numbers whose text reads back as the number. *)
Definition well_formed_mapping (m : list (pyval * spec_float)) : Prop :=
  m <> [] /\
  Forall (fun item => exists s, fst item = PyStr s /\ identifier s = true) m /\
  Forall (fun item => value_reads_back (snd item)) m.

(** ** The tokens of the rendered call *)

Definition comma : ascii := ",".
Definition newline : ascii := chr 10.

(** The tokens of a list of characters. *)
Definition tok (l : list ascii) : list token := tokenize (length l) l.

(** The tokens that render one entry of the mapping, the comma included. *)
Definition item_tokens (item : pyval * spec_float) : list token :=
  TName (py_str (fst item)) :: TEq :: tokens_of (float_repr (snd item)) ++ [TComma].

(** The tokens of the generated call, flat and inside [twiss]. *)
Definition call_tokens (twiss : bool) (N : string) (items : list (pyval * spec_float))
  : list token :=
  [TName "distr"; TEq; TName "distribution"; TDot; TName N; TLPar]
  ++ (if twiss then [TStars; TName "twiss"; TLPar] else [])
  ++ concat (map item_tokens items)
  ++ (if twiss then [TRPar; TRPar] else [TRPar]).

(** The keyword argument that an entry of the mapping is read back as. *)
Definition keyword_item (item : pyval * spec_float) : string * argument_value :=
  (py_str (fst item), VNumber (snd item)).

(* ===================================================================== *)
(** * Example states *)
(* ===================================================================== *)

Definition parameter (name value : string) (errors : list string) : gmap string pyval :=
  list_to_map [ ("parameter_name", PyStr name);
                ("parameter_default_value", PyStr value);
                ("parameter_error_message", PyList (map PyStr errors)) ].

Definition lattice_element (name : string) : gmap string pyval :=
  list_to_map [ ("name", PyStr name) ].

Definition example_state (kind : string) (params elements : list (gmap string pyval)) : State :=
  {| particle_shape := PyInt 2;
     kin_energy_MeV := PyStr "2.0e3";
     bunch_charge_C := PyStr "1.0e-9";
     npart := PyInt 10000;
     charge_qe := PyInt 1;
     mass_MeV := PyStr "938.27208816";
     selectedDistribution := PyStr "Waterbag";
     selectedDistributionType := PyStr kind;
     selectedDistributionParameters := params;
     selectedLatticeList := elements |}.

(** A checker that keeps the one parameter [ds] of every element. *)
Definition example_checker (element : gmap string pyval) : result (list (pyval * pyval)) :=
  Ok [(PyStr "ds", PyStr "1.0")].

Definition waterbag_parameters : list (gmap string pyval) :=
  [ parameter "lambdaX" "1.16098260008648811e-3" [];
    parameter "lambdaPx" "oops" ["Must be a float"];
    parameter "muxpx" "0.0" [] ].

Definition waterbag_state : State :=
  example_state "Native" waterbag_parameters [lattice_element "Quad"; lattice_element "Drift"].

Definition twiss_state : State :=
  example_state "Twiss" waterbag_parameters [lattice_element "Quad"; lattice_element "Drift"].

(** No parameter record and no lattice element. *)
Definition empty_state : State := example_state "Native" [] [].

(** Every record failed validation. *)
Definition all_invalid_state : State :=
  example_state "Native"
    [ parameter "lambdaX" "oops" ["Must be a float"];
      parameter "muxpx" "" ["Must be a float"] ]
    [lattice_element "Quad"].

(** A record without error message whose value is not a number. *)
Definition unparseable_state : State :=
  example_state "Native"
    [ parameter "lambdaX" "1.0e-3" []; parameter "muxpx" "abc" [] ]
    [lattice_element "Quad"].

(** A number beyond the range of the floats: [float] reads an infinity. *)
Definition overflow_state : State :=
  example_state "Native" [ parameter "lambdaX" "1e999" [] ] [lattice_element "Quad"].

(** The same name twice among the valid records. *)
Definition duplicate_state : State :=
  example_state "Native"
    [ parameter "lambdaX" "1.0" []; parameter "muxpx" "0.5" [];
      parameter "lambdaX" "2.0" [] ]
    [].

(** The second element has no name. *)
Definition nameless_state : State :=
  example_state "Native" waterbag_parameters
    [ lattice_element "Quad"; list_to_map [("ds", PyStr "1.0")]; lattice_element "Drift" ].

(** The nine parameters of the Waterbag distribution, with the values of
    [examples/alignment/run_alignment.py]. *)
Definition alignment_parameters : list (gmap string pyval) :=
  [ parameter "lambdaX" "1.16098260008648811e-3" [];
    parameter "lambdaY" "1.16098260008648811e-3" [];
    parameter "lambdaT" "1.0e-3" [];
    parameter "lambdaPx" "0.580491300043e-3" [];
    parameter "lambdaPy" "0.580491300043e-3" [];
    parameter "lambdaPt" "2.0e-3" [];
    parameter "muxpx" "0.0" [];
    parameter "muypy" "0.0" [];
    parameter "mutpt" "0.0" [] ].

Definition alignment_state : State :=
  example_state "Native" alignment_parameters [lattice_element "Quad"; lattice_element "Drift"].

Definition alignment_twiss_state : State :=
  example_state "Twiss" alignment_parameters [lattice_element "Quad"; lattice_element "Drift"].

(** The values of [alignment_parameters] as floats. *)
Definition alignment_mapping : list (pyval * spec_float) :=
  [ (PyStr "lambdaX", float_of_decimal false 116098260008648811 (-20));
    (PyStr "lambdaY", float_of_decimal false 116098260008648811 (-20));
    (PyStr "lambdaT", float_of_decimal false 1 (-3));
    (PyStr "lambdaPx", float_of_decimal false 580491300043 (-15));
    (PyStr "lambdaPy", float_of_decimal false 580491300043 (-15));
    (PyStr "lambdaPt", float_of_decimal false 2 (-3));
    (PyStr "muxpx", float_zero);
    (PyStr "muypy", float_zero);
    (PyStr "mutpt", float_zero) ].

(* ===================================================================== *)
(** * Vocabulary of the further properties *)
(* ===================================================================== *)

(** The record has its list of error messages. *)
Definition has_error_list (param : gmap string pyval) : Prop :=
  is_Some (param !! "parameter_error_message").

(** What the comprehension needs from a record: the list of error
    messages, and for a record that passed validation a name that can be a
    dictionary key and a default value that [float] reads. *)
Definition record_ok (param : gmap string pyval) : Prop :=
  has_error_list param /\
  (param_valid param ->
   exists name v x,
     param !! "parameter_name" = Some name /\ py_hashable name = true /\
     param !! "parameter_default_value" = Some v /\ py_float v = Ok x).

(** What [build_lattice_list] needs from an element. *)
Definition element_ok (checker : gmap string pyval -> result (list (pyval * pyval)))
    (element : gmap string pyval) : Prop :=
  is_Some (element !! "name") /\ exists parameters, checker element = Ok parameters.

(** The state with another lattice list. *)
Definition with_lattice (state : State) (elements : list (gmap string pyval)) : State :=
  {| particle_shape := particle_shape state;
     kin_energy_MeV := kin_energy_MeV state;
     bunch_charge_C := bunch_charge_C state;
     npart := npart state;
     charge_qe := charge_qe state;
     mass_MeV := mass_MeV state;
     selectedDistribution := selectedDistribution state;
     selectedDistributionType := selectedDistributionType state;
     selectedDistributionParameters := selectedDistributionParameters state;
     selectedLatticeList := elements |}.

(** The character occurs in the text. *)
Definition has_char (c : ascii) (s : string) : bool :=
  existsb (ascii_eqb c) (chars s).

(** A record that failed validation and has neither name nor value. *)
Definition bare_invalid_record : gmap string pyval :=
  list_to_map [ ("parameter_error_message", PyList [PyStr "Must be a float"]) ].

(** A record without the list of error messages. *)
Definition record_without_errors : gmap string pyval :=
  list_to_map [ ("parameter_name", PyStr "muypy");
                ("parameter_default_value", PyStr "0.0") ].

(** A record that passed validation, with any value as default value. *)
Definition valid_record (name : pyval) (value : pyval) : gmap string pyval :=
  list_to_map [ ("parameter_name", name);
                ("parameter_default_value", value);
                ("parameter_error_message", PyList []) ].

(** A checker that refuses the elements named [Bad]. *)
Definition strict_checker (element : gmap string pyval) : result (list (pyval * pyval)) :=
  match element !! "name" with
  | Some (PyStr "Bad") => Raise ValueError
  | _ => Ok [(PyStr "ds", PyStr "1.0")]
  end.

(** The second record has no list of error messages. *)
Definition missing_field_state : State :=
  example_state "Native"
    [ parameter "lambdaX" "1.0e-3" []; record_without_errors; parameter "muxpx" "0.0" [] ]
    [lattice_element "Quad"].

(** The second record passed validation with [None] as default value. *)
Definition none_value_state : State :=
  example_state "Native"
    [ parameter "lambdaX" "1.0e-3" []; valid_record (PyStr "muxpx") PyNone ]
    [lattice_element "Quad"].

(** The second record passed validation with a list as name. *)
Definition list_name_state : State :=
  example_state "Native"
    [ parameter "lambdaX" "1.0e-3" []; valid_record (PyList [PyStr "muxpx"]) (PyStr "0.0") ]
    [lattice_element "Quad"].

(** A record that failed validation, without name and value, between two
    valid ones. *)
Definition bare_invalid_state : State :=
  example_state "Native"
    [ parameter "lambdaX" "1.0e-3" []; bare_invalid_record; parameter "muxpx" "0.0" [] ]
    [lattice_element "Quad"].

(** The records of the Waterbag example, the first two exchanged. *)
Definition reordered_waterbag_state : State :=
  example_state "Native"
    [ parameter "lambdaPx" "oops" ["Must be a float"];
      parameter "lambdaX" "1.16098260008648811e-3" [];
      parameter "muxpx" "0.0" [] ]
    [lattice_element "Quad"; lattice_element "Drift"].

(** The second element is refused by [strict_checker]. *)
Definition refused_element_state : State :=
  example_state "Native" waterbag_parameters
    [ lattice_element "Quad"; lattice_element "Bad"; lattice_element "Drift" ].

(* ===================================================================== *)
(** * Tactics for the example states *)
(* ===================================================================== *)

(** Goals about a particular state are closed by evaluation. *)
Ltac lookup := vm_compute; reflexivity.

Ltac conjuncts := repeat match goal with |- _ /\ _ => split end.

Ltac each_record :=
  repeat first [ apply List.Forall_nil | apply List.Forall_cons ].

Ltac well_formed :=
  each_record; unfold wf_param; conjuncts; eexists; lookup.

Ltac valid_parses :=
  each_record;
  (intros Hvalid;
   first [ exfalso; vm_compute in Hvalid; discriminate Hvalid
         | do 2 eexists; split; [lookup | lookup] ]).

Ltac valid_strings :=
  each_record; intros _; eexists; lookup.

Ltac different_names :=
  vm_compute;
  repeat (apply NoDup_cons; split;
          [ let H := fresh in
            intros H;
            repeat (apply elem_of_cons in H as [H|H]; [discriminate H|]);
            by apply elem_of_nil in H | ]);
  apply NoDup_nil; exact I.

(** The 256 characters, one by one. *)
Ltac each_char c := destruct c as [[] [] [] [] [] [] [] []].

(** Rewrites the name [s] before the character [d] into its token, by the
    lemma [name_lemma] about the tokens of a name. *)
Ltac name_token name_lemma s d H :=
  match goal with
  | |- context [tok (chars s ++ d :: ?T)] => rewrite (name_lemma s d T H eq_refl)
  end.

Ltac each_entry t :=
  repeat first [ apply Forall_nil_2 | apply Forall_cons; split; [t|] ].

Ltac well_formed_entries :=
  split; [discriminate|];
  split; [ each_entry ltac:(eexists; split; [reflexivity|lookup])
         | each_entry ltac:(lookup) ].

(* ===================================================================== *)
(** * Equality of values and the error monad *)
(* ===================================================================== *)

Lemma bind_Ok {A B : Type} (a : A) (f : A -> result B) : (Ok a ≫= f) = f a.
Proof. reflexivity. Qed.

Lemma bind_inv_Ok {A B : Type} (r : result A) (f : A -> result B) (b : B) :
  (r ≫= f) = Ok b -> exists a, r = Ok a /\ f a = Ok b.
Proof. destruct r as [a|e]; [eauto | discriminate]. Qed.

Lemma py_eqb_empty_list (v : pyval) : py_eqb v (PyList []) = true <-> v = PyList [].
Proof.
  split; [| intros ->; reflexivity].
  destruct v as [| | | |[|x l]]; simpl; congruence.
Qed.

Lemma py_eqb_str_r (v : pyval) (s : string) : py_eqb v (PyStr s) = true <-> v = PyStr s.
Proof.
  destruct v; simpl; try (split; [discriminate | congruence]).
  rewrite String.eqb_eq. split; congruence.
Qed.

Lemma py_eqb_str_l (v : pyval) (s : string) : py_eqb (PyStr s) v = true <-> v = PyStr s.
Proof.
  destruct v; simpl; try (split; [discriminate | congruence]).
  rewrite String.eqb_eq. split; congruence.
Qed.

Lemma getitem_Ok (d : gmap string pyval) (k : string) (v : pyval) :
  getitem d k = Ok v <-> d !! k = Some v.
Proof. unfold getitem. destruct (d !! k); split; congruence. Qed.

Lemma classic_valid (param : gmap string pyval) : param_valid param \/ ~ param_valid param.
Proof.
  unfold param_valid. destruct (param !! "parameter_error_message") as [v|]; [|right; discriminate].
  destruct (py_eqb v (PyList [])) eqn:E.
  - apply py_eqb_empty_list in E as ->. by left.
  - right. intros [= ->]. discriminate.
Qed.

Lemma param_validb_true (param : gmap string pyval) :
  param_validb param = true <-> param_valid param.
Proof.
  unfold param_validb, param_valid. destruct (param !! _) as [v|].
  - rewrite py_eqb_empty_list. split; congruence.
  - split; discriminate.
Qed.

(* ===================================================================== *)
(** * The dictionary built by the comprehension *)
(* ===================================================================== *)

Import DistributionFunctions.

(** An entry of a dictionary after a store was there before, or is the
    stored value under the stored key or under the key that it replaced. *)
Lemma dict_store_entry {V : Type} (d : list (pyval * V)) (k0 : pyval) (x0 : V) (k : pyval) (x : V) :
  (k, x) ∈ dict_store d k0 x0 ->
  (k, x) ∈ d \/ (x = x0 /\ (k = k0 \/ py_eqb k k0 = true)).
Proof.
  induction d as [|[k' x'] d IH]; simpl.
  - rewrite list_elem_of_singleton. intros [= -> ->]. auto.
  - destruct (py_eqb k' k0) eqn:E; rewrite !elem_of_cons.
    + intros [[= -> ->]|H]; auto.
    + intros [H|H]; auto. destruct (IH H) as [?|?]; auto.
Qed.

(** The filter decides from the error messages alone. *)
Lemma filter_expr_spec (param : gmap string pyval) :
  filter_expr param =
    match param !! "parameter_error_message" with
    | Some msg => Ok (py_eqb msg (PyList []))
    | None => Raise KeyError
    end.
Proof. unfold filter_expr, getitem. destruct (param !! _); reflexivity. Qed.

(** A round of the comprehension reaches the value expression only with
    [param_is_valid] true. *)
Lemma comprehension_step_valid_only (else_value : spec_float)
    (acc : list (pyval * spec_float)) (param : gmap string pyval) :
  comprehension_step else_value acc param =
    (param_is_valid ← filter_expr param;
     if param_is_valid : bool
     then key ← getitem param "parameter_name";
          value ← value_expr else_value param true;
          dict_setitem acc key value
     else Ok acc).
Proof.
  unfold comprehension_step. destruct (filter_expr param) as [[|]|]; reflexivity.
Qed.

Lemma comprehension_step_else_irrelevant (d d' : spec_float)
    (acc : list (pyval * spec_float)) (param : gmap string pyval) :
  comprehension_step d acc param = comprehension_step d' acc param.
Proof. rewrite !comprehension_step_valid_only. reflexivity. Qed.

Lemma comprehension_else_irrelevant (d d' : spec_float) (params : list (gmap string pyval)) :
  forall acc, comprehension d acc params = comprehension d' acc params.
Proof.
  induction params as [|param rest IH]; intros acc; simpl; [reflexivity|].
  rewrite (comprehension_step_else_irrelevant d d').
  destruct (comprehension_step d' acc param); simpl; [apply IH | reflexivity].
Qed.

(** A successful round either skips an invalid record or stores the float
    read from a valid one. *)
Lemma comprehension_step_inv (d : spec_float) (acc acc' : list (pyval * spec_float))
    (param : gmap string pyval) :
  comprehension_step d acc param = Ok acc' ->
  (~ param_valid param /\ is_Some (param !! "parameter_error_message") /\ acc' = acc) \/
  (param_valid param /\
   exists name v x,
     param !! "parameter_name" = Some name /\
     param !! "parameter_default_value" = Some v /\
     py_float v = Ok x /\ py_hashable name = true /\
     acc' = dict_store acc name x).
Proof.
  rewrite comprehension_step_valid_only, filter_expr_spec.
  destruct (param !! "parameter_error_message") as [msg|] eqn:Emsg; [|discriminate].
  simpl. destruct (py_eqb msg (PyList [])) eqn:Eb.
  - apply py_eqb_empty_list in Eb as ->. intros H. right. split; [exact Emsg|].
    apply bind_inv_Ok in H as (name & Hn & H). apply getitem_Ok in Hn.
    apply bind_inv_Ok in H as (x & Hx & H). simpl in Hx.
    apply bind_inv_Ok in Hx as (v & Hv & Hx). apply getitem_Ok in Hv.
    unfold dict_setitem in H. destruct (py_hashable name) eqn:Hh; [|discriminate].
    injection H as <-. eauto 10.
  - intros [= <-]. left. split; [|eauto].
    unfold param_valid. rewrite Emsg. intros [= ->]. discriminate.
Qed.

(** Where the entries of the result come from. *)
Lemma comprehension_entries (d : spec_float) (params : list (gmap string pyval)) :
  forall acc m, comprehension d acc params = Ok m ->
  forall k x, (k, x) ∈ m ->
    (k, x) ∈ acc \/
    exists param name v,
      param ∈ params /\ param_valid param /\
      param !! "parameter_name" = Some name /\ (k = name \/ py_eqb k name = true) /\
      param !! "parameter_default_value" = Some v /\ py_float v = Ok x.
Proof.
  induction params as [|param rest IH]; intros acc m; simpl.
  - intros [= <-]. auto.
  - intros H k x Hin. apply bind_inv_Ok in H as (acc' & Hstep & H).
    destruct (IH _ _ H _ _ Hin) as [Hacc|(p & name & v & Hp & ?)].
    + apply comprehension_step_inv in Hstep
        as [(_ & _ & ->)|(Hvalid & name & v & x0 & Hn & Hv & Hx & _ & ->)]; [auto|].
      apply dict_store_entry in Hacc as [?|[-> Hk]]; [auto|].
      right. exists param, name, v. rewrite elem_of_cons. auto 10.
    + right. exists p, name, v. rewrite elem_of_cons. tauto.
Qed.

(** C9. The [else 0.0] branch of the value expression is never taken:
    the result is the same whatever constant stands in that branch, every
    round evaluates the value expression with [param_is_valid] true, and
    every value of a returned mapping is the float read from the default
    value of a record that passed validation. *)
Theorem else_branch_unreachable (state : State) :
  (forall else_value,
     comprehension else_value [] (selectedDistributionParameters state)
     = convert_distribution_parameters_to_valid_type state) /\
  (forall m, convert_distribution_parameters_to_valid_type state = Ok m ->
   forall k x, (k, x) ∈ m ->
     exists param v,
       param ∈ selectedDistributionParameters state /\ param_valid param /\
       param !! "parameter_default_value" = Some v /\ py_float v = Ok x).
Proof.
  split.
  - intros d. apply comprehension_else_irrelevant.
  - intros m H k x Hin.
    destruct (comprehension_entries _ _ _ _ H _ _ Hin) as [Hnil|(p & name & v & ?)].
    + apply elem_of_nil in Hnil as [].
    + exists p, v. tauto.
Qed.

(** ** Stores *)

Lemma dict_store_keys {V : Type} (d : list (pyval * V)) (k : pyval) (x : V) :
  map fst (dict_store d k x) = add_key (map fst d) k.
Proof.
  unfold add_key. induction d as [|[k' x'] d IH]; simpl; [reflexivity|].
  destruct (py_eqb k' k); simpl; [reflexivity|].
  rewrite IH. destruct (key_in k (map fst d)); reflexivity.
Qed.

Lemma store_all_keys {V : Type} (items : list (pyval * V)) :
  forall acc, map fst (store_all acc items) = fold_left add_key (map fst items) (map fst acc).
Proof.
  induction items as [|[k x] items IH]; intros acc; simpl; [reflexivity|].
  unfold store_all in *. simpl. rewrite IH, dict_store_keys. reflexivity.
Qed.

Lemma key_in_app (k : pyval) (l1 l2 : list pyval) :
  key_in k (l1 ++ l2) = key_in k l1 || key_in k l2.
Proof. apply existsb_app. Qed.

Lemma key_in_str (s : string) (keys : list pyval) :
  key_in (PyStr s) keys = true <-> PyStr s ∈ keys.
Proof.
  unfold key_in. rewrite existsb_exists. split.
  - intros (k & Hin & Hk). apply py_eqb_str_r in Hk as ->. by apply list_elem_of_In.
  - intros Hin. exists (PyStr s). split; [by apply list_elem_of_In | by apply py_eqb_str_r].
Qed.

(** The keys after a run of stores of string keys: the old keys, then the
    new ones in the order of their first store. *)
Lemma fold_add_key_keep_first (l : list pyval) :
  Forall is_str l ->
  forall keys,
    fold_left add_key l keys
    = keys ++ filter (fun k => key_in k keys = false) (keep_first l).
Proof.
  induction l as [|k l IH]; intros Hstr keys; simpl.
  - by rewrite filter_nil, app_nil_r.
  - apply Forall_cons in Hstr as [[s ->] Hstr]. rewrite (IH Hstr). unfold add_key.
    destruct (key_in (PyStr s) keys) eqn:Hk.
    + rewrite filter_cons_False by congruence. f_equal.
      symmetry. apply list_filter_filter_l. intros k' Hk'.
      destruct (py_eqb (PyStr s) k') eqn:E; [|reflexivity].
      apply py_eqb_str_l in E as ->. congruence.
    + rewrite filter_cons_True by assumption.
      rewrite <- app_assoc. simpl. do 2 f_equal.
      rewrite list_filter_filter. apply list_filter_iff. intros k'.
      rewrite key_in_app. unfold key_in at 2. simpl.
      rewrite orb_false_r, orb_false_iff. tauto.
Qed.

Lemma keep_first_str (l : list pyval) : Forall is_str l -> Forall is_str (keep_first l).
Proof.
  induction 1 as [|k l Hk _ IH]; simpl; constructor; [assumption|].
  apply Forall_forall. intros k' Hin. apply list_elem_of_filter in Hin as [_ Hin].
  revert k' Hin. by apply Forall_forall.
Qed.

Lemma keep_first_NoDup (l : list pyval) : Forall is_str l -> NoDup (keep_first l).
Proof.
  induction 1 as [|k l [s ->] _ IH]; simpl; [constructor|].
  apply NoDup_cons. split.
  - intros Hin. apply list_elem_of_filter in Hin as [Hne _].
    simpl in Hne. rewrite String.eqb_refl in Hne. discriminate.
  - by apply NoDup_filter.
Qed.

Lemma keep_first_elem (l : list pyval) (k : pyval) :
  Forall is_str l -> k ∈ keep_first l <-> k ∈ l.
Proof.
  induction 1 as [|k0 l [s ->] _ IH]; simpl; [reflexivity|].
  rewrite !elem_of_cons, list_elem_of_filter, IH. split; [tauto|].
  intros [->|Hin]; [auto|].
  destruct (py_eqb (PyStr s) k) eqn:E; [|auto].
  apply py_eqb_str_l in E. auto.
Qed.

Lemma filter_all {A : Type} (P : A -> Prop) `{!forall x, Decision (P x)} (l : list A) :
  (forall x, P x) -> filter P l = l.
Proof.
  intros HP. induction l as [|x l IH]; [reflexivity|].
  rewrite filter_cons_True by apply HP. by rewrite IH.
Qed.

Lemma store_all_keys_keep_first {V : Type} (items : list (pyval * V)) :
  Forall is_str (map fst items) ->
  map fst (store_all [] items) = keep_first (map fst items).
Proof.
  intros Hstr. rewrite store_all_keys, (fold_add_key_keep_first _ Hstr). simpl.
  apply filter_all. intros; reflexivity.
Qed.

Lemma store_all_app {V : Type} (acc : list (pyval * V)) (l1 l2 : list (pyval * V)) :
  store_all acc (l1 ++ l2) = store_all (store_all acc l1) l2.
Proof. apply fold_left_app. Qed.

Lemma store_all_entry {V : Type} (items : list (pyval * V)) :
  Forall is_str (map fst items) ->
  forall acc k x, (k, x) ∈ store_all acc items -> (k, x) ∈ acc \/ (k, x) ∈ items.
Proof.
  induction items as [|[k0 x0] items IH]; intros Hstr acc k x; simpl; [auto|].
  simpl in Hstr. apply Forall_cons in Hstr as [[s ->] Hstr].
  intros Hin. apply (IH Hstr) in Hin as [Hin|Hin]; rewrite elem_of_cons; [|auto].
  apply dict_store_entry in Hin as [?|[-> [->|Hk]]]; auto.
  apply py_eqb_str_r in Hk as ->. auto.
Qed.

(** ** Lookups *)

Lemma dict_get_store_same {V : Type} (d : list (pyval * V)) (s : string) (x : V) :
  dict_get (dict_store d (PyStr s) x) (PyStr s) = Some x.
Proof.
  assert (Hs : py_eqb (PyStr s) (PyStr s) = true) by by apply py_eqb_str_l.
  induction d as [|[k' x'] d IH]; cbn [dict_get dict_store].
  - by rewrite Hs.
  - destruct (py_eqb k' (PyStr s)) eqn:E; cbn [dict_get]; rewrite E; [reflexivity | exact IH].
Qed.

Lemma dict_get_store_other {V : Type} (d : list (pyval * V)) (s : string) (x : V) (k : pyval) :
  k <> PyStr s ->
  dict_get (dict_store d (PyStr s) x) k = dict_get d k.
Proof.
  intros Hne.
  assert (Hk : py_eqb (PyStr s) k = false).
  { destruct (py_eqb (PyStr s) k) eqn:E; [|reflexivity].
    apply py_eqb_str_l in E. congruence. }
  induction d as [|[k' x'] d IH]; cbn [dict_get dict_store].
  - by rewrite Hk.
  - destruct (py_eqb k' (PyStr s)) eqn:E; cbn [dict_get].
    + apply py_eqb_str_r in E as ->. by rewrite Hk.
    + by rewrite IH.
Qed.

Lemma dict_get_store_all_other {V : Type} (items : list (pyval * V)) (k : pyval) :
  Forall is_str (map fst items) -> k ∉ map fst items ->
  forall acc, dict_get (store_all acc items) k = dict_get acc k.
Proof.
  induction items as [|[k0 x0] items IH]; intros Hstr Hk acc; simpl; [reflexivity|].
  simpl in Hstr, Hk. apply Forall_cons in Hstr as [[s ->] Hstr].
  apply not_elem_of_cons in Hk as [Hne Hk].
  unfold store_all in *. simpl. rewrite (IH Hstr Hk). by apply dict_get_store_other.
Qed.

(** The last store to a key decides its value. *)
Lemma dict_get_store_all_last {V : Type} (l1 l2 : list (pyval * V)) (s : string) (x : V) :
  Forall is_str (map fst l2) -> PyStr s ∉ map fst l2 ->
  forall acc, dict_get (store_all acc (l1 ++ (PyStr s, x) :: l2)) (PyStr s) = Some x.
Proof.
  intros Hstr Hk acc. rewrite store_all_app.
  change (store_all ?a ((PyStr s, x) :: l2)) with (store_all (dict_store a (PyStr s) x) l2).
  rewrite (dict_get_store_all_other _ _ Hstr Hk). apply dict_get_store_same.
Qed.

Lemma dict_get_entry {V : Type} (d : list (pyval * V)) (s : string) (x : V) :
  NoDup (map fst d) -> (PyStr s, x) ∈ d -> dict_get d (PyStr s) = Some x.
Proof.
  assert (Hs : py_eqb (PyStr s) (PyStr s) = true) by by apply py_eqb_str_l.
  induction d as [|[k' x'] d IH]; cbn [dict_get map fst].
  - intros _ H. by apply elem_of_nil in H.
  - intros Hnd Hin. apply NoDup_cons in Hnd as [Hk' Hnd].
    apply elem_of_cons in Hin as [[= <- <-]|Hin].
    + by rewrite Hs.
    + destruct (py_eqb k' (PyStr s)) eqn:E; [|by apply IH].
      apply py_eqb_str_r in E as ->. exfalso. apply Hk'.
      apply list_elem_of_In, in_map_iff. exists (PyStr s, x). split; [reflexivity|].
      by apply list_elem_of_In.
Qed.

(** ** What the records contribute *)

Lemma param_item_Some (param : gmap string pyval) (k : pyval) (x : spec_float) :
  param_item param = Some (k, x) <->
  param_valid param /\ param !! "parameter_name" = Some k /\
  exists v, param !! "parameter_default_value" = Some v /\ py_float v = Ok x.
Proof.
  unfold param_item. rewrite <- param_validb_true.
  destruct (param_validb param); [|split; [discriminate | intros [? _]; discriminate]].
  destruct (param !! "parameter_name") as [k'|];
    [|split; [discriminate | intros (_ & ? & _); discriminate]].
  destruct (param !! "parameter_default_value") as [v|];
    [|split; [discriminate | intros (_ & _ & ? & ? & _); discriminate]].
  destruct (py_float v) as [x'|e] eqn:E; split.
  - intros [= -> ->]. eauto.
  - intros (_ & [= ->] & v' & [= <-] & Hx). congruence.
  - discriminate.
  - intros (_ & _ & v' & [= <-] & Hx). congruence.
Qed.

Lemma param_item_invalid (param : gmap string pyval) :
  ~ param_valid param -> param_item param = None.
Proof.
  intros H. destruct (param_item param) as [[k x]|] eqn:E; [|reflexivity].
  apply param_item_Some in E. tauto.
Qed.


(** A round on a well-formed record whose value can be read never raises. *)
Lemma comprehension_step_ok (d : spec_float) (acc : list (pyval * spec_float))
    (param : gmap string pyval) :
  wf_param param -> (param_valid param -> param_parses param) ->
  comprehension_step d acc param
  = Ok (match param_item param with
        | Some item => dict_store acc (fst item) (snd item)
        | None => acc
        end).
Proof.
  intros Hwf Hparses. rewrite comprehension_step_valid_only, filter_expr_spec.
  destruct Hwf as ([s Hs] & _ & [msg Hmsg]). rewrite Hmsg. simpl.
  destruct (py_eqb msg (PyList [])) eqn:Eb.
  - apply py_eqb_empty_list in Eb as ->.
    destruct (Hparses Hmsg) as (v & x & Hv & Hx).
    assert (Hitem : param_item param = Some (PyStr s, x))
      by (apply param_item_Some; eauto).
    rewrite Hitem. unfold getitem. rewrite Hs, Hv. simpl. rewrite Hx. reflexivity.
  - rewrite param_item_invalid; [reflexivity|].
    unfold param_valid. rewrite Hmsg. intros [= ->]. discriminate.
Qed.

Lemma comprehension_ok (d : spec_float) (params : list (gmap string pyval)) :
  Forall wf_param params ->
  Forall (fun param => param_valid param -> param_parses param) params ->
  forall acc, comprehension d acc params = Ok (store_all acc (omap param_item params)).
Proof.
  induction params as [|param rest IH]; intros Hwf Hparses acc; simpl; [reflexivity|].
  apply Forall_cons in Hwf as [Hwf Hwfs]. apply Forall_cons in Hparses as [Hp Hps].
  rewrite (comprehension_step_ok _ _ _ Hwf Hp). simpl.
  rewrite (IH Hwfs Hps). destruct (param_item param); reflexivity.
Qed.

Lemma param_items_str (params : list (gmap string pyval)) :
  Forall wf_param params -> Forall is_str (map fst (omap param_item params)).
Proof.
  intros Hwf. apply Forall_forall. intros k Hk.
  apply list_elem_of_In, in_map_iff in Hk as ([k' x] & <- & Hin).
  apply list_elem_of_In, list_elem_of_omap in Hin as (param & Hin & Hitem).
  apply param_item_Some in Hitem as (_ & Hname & _).
  rewrite Forall_forall in Hwf. destruct (Hwf _ Hin) as ([s Hs] & _).
  exists s. simpl. congruence.
Qed.

Lemma param_items_names (params : list (gmap string pyval)) :
  Forall (fun param => param_valid param -> param_parses param) params ->
  Forall (fun param => is_Some (param !! "parameter_name")) params ->
  map fst (omap param_item params) = valid_names params.
Proof.
  unfold valid_names.
  induction params as [|param rest IH]; intros Hparses Hnames; [reflexivity|].
  apply Forall_cons in Hparses as [Hp Hps]. apply Forall_cons in Hnames as [[k Hk] Hns].
  cbn [omap list_omap]. rewrite <- (IH Hps Hns). unfold param_item at 1.
  destruct (param_validb param) eqn:Ev; [|reflexivity].
  apply param_validb_true in Ev. destruct (Hp Ev) as (v & x & Hv & Hx).
  rewrite Hk, Hv, Hx. reflexivity.
Qed.

Lemma wf_param_name (params : list (gmap string pyval)) :
  Forall wf_param params ->
  Forall (fun param => is_Some (param !! "parameter_name")) params.
Proof.
  intros H. eapply Forall_impl; [exact H|]. intros param ([s Hs] & _). eauto.
Qed.

(** The records that failed validation can be left out beforehand. *)
Lemma param_items_filter (params : list (gmap string pyval)) :
  omap param_item (List.filter param_validb params) = omap param_item params.
Proof.
  induction params as [|param rest IH]; [reflexivity|]. cbn [List.filter].
  destruct (param_validb param) eqn:Ev; cbn [omap list_omap]; rewrite IH; [reflexivity|].
  rewrite param_item_invalid; [reflexivity|].
  rewrite <- param_validb_true. congruence.
Qed.

Lemma Forall_List_filter {A : Type} (P : A -> Prop) (f : A -> bool) (l : list A) :
  Forall P l -> Forall P (List.filter f l).
Proof.
  intros H. apply Forall_forall. intros x Hx.
  apply list_elem_of_In, filter_In in Hx as [Hx _].
  rewrite Forall_forall in H. by apply H, list_elem_of_In.
Qed.

(** C1. For parameter records that have their three fields, a string as
    name and, when their error list is empty, a default value that [float]
    reads: the function returns a mapping whose keys are exactly the names
    of the records with an empty error list; each value is the float read
    from the default value of such a record with that name (the record's
    own, when no other valid record shares its name); the records with a
    non-empty error list contribute nothing, the mapping is the one of the
    valid records alone. *)
Theorem validated_mapping_entries (state : State) :
  Forall wf_param (selectedDistributionParameters state) ->
  Forall (fun param => param_valid param -> param_parses param)
         (selectedDistributionParameters state) ->
  exists m,
    convert_distribution_parameters_to_valid_type state = Ok m /\
    (forall k, k ∈ map fst m <->
       exists param, param ∈ selectedDistributionParameters state /\
                     param_valid param /\ param !! "parameter_name" = Some k) /\
    (forall k x, (k, x) ∈ m ->
       exists param v, param ∈ selectedDistributionParameters state /\
                       param_valid param /\ param !! "parameter_name" = Some k /\
                       param !! "parameter_default_value" = Some v /\ py_float v = Ok x) /\
    (forall param k,
       param ∈ selectedDistributionParameters state ->
       param_valid param -> param !! "parameter_name" = Some k ->
       (forall other, other ∈ selectedDistributionParameters state ->
                      param_valid other -> other !! "parameter_name" = Some k ->
                      other = param) ->
       exists v x, param !! "parameter_default_value" = Some v /\
                   py_float v = Ok x /\ (k, x) ∈ m) /\
    convert_distribution_parameters_to_valid_type
      (with_parameters state
         (List.filter param_validb (selectedDistributionParameters state))) = Ok m.
Proof.
  intros Hwf Hparses. set (params := selectedDistributionParameters state) in *.
  exists (store_all [] (omap param_item params)).
  assert (Hstr := param_items_str _ Hwf).
  assert (Hkeys : forall k, k ∈ map fst (store_all [] (omap param_item params)) <->
            exists param, param ∈ params /\ param_valid param /\
                          param !! "parameter_name" = Some k).
  { intros k. rewrite (store_all_keys_keep_first _ Hstr), (keep_first_elem _ _ Hstr).
    rewrite list_elem_of_In, in_map_iff. split.
    - intros ([k' x] & <- & Hin).
      apply list_elem_of_In, list_elem_of_omap in Hin as (param & Hin & Hitem).
      apply param_item_Some in Hitem. exists param. tauto.
    - intros (param & Hin & Hvalid & Hname).
      rewrite Forall_forall in Hparses. destruct (Hparses _ Hin Hvalid) as (v & x & Hv & Hx).
      exists (k, x). split; [reflexivity|].
      apply list_elem_of_In, list_elem_of_omap. exists param. split; [assumption|].
      apply param_item_Some. eauto. }
  assert (Hvals : forall k x, (k, x) ∈ store_all [] (omap param_item params) ->
            exists param v, param ∈ params /\ param_valid param /\
                            param !! "parameter_name" = Some k /\
                            param !! "parameter_default_value" = Some v /\
                            py_float v = Ok x).
  { intros k x Hin. apply (store_all_entry _ Hstr) in Hin as [Hin|Hin].
    - by apply elem_of_nil in Hin.
    - apply list_elem_of_omap in Hin as (param & Hin & Hitem).
      apply param_item_Some in Hitem as (? & ? & v & ? & ?). exists param, v. tauto. }
  split; [|split; [|split; [|split]]].
  - unfold convert_distribution_parameters_to_valid_type. by apply comprehension_ok.
  - exact Hkeys.
  - exact Hvals.
  - intros param k Hin Hvalid Hname Huniq.
    assert (Hk : k ∈ map fst (store_all [] (omap param_item params)))
      by (apply Hkeys; eauto).
    apply list_elem_of_In, in_map_iff in Hk as ([k' x] & Hfst & Hk). simpl in Hfst. subst k'.
    apply list_elem_of_In in Hk.
    destruct (Hvals _ _ Hk) as (other & v & Hin' & Hvalid' & Hname' & Hv & Hx).
    rewrite (Huniq _ Hin' Hvalid' Hname') in Hv. eauto.
  - unfold convert_distribution_parameters_to_valid_type. simpl.
    rewrite comprehension_ok, param_items_filter; [reflexivity| |];
      by apply Forall_List_filter.
Qed.

(** C7. For well-formed parameter records whose valid values can be read:
    the keys of the returned mapping are the names of the valid records in
    input order, each at the place of its first occurrence; no key occurs
    twice; and the value under a name is the float read from the last valid
    record with that name. *)
Theorem key_order_and_last_wins (state : State) :
  Forall wf_param (selectedDistributionParameters state) ->
  Forall (fun param => param_valid param -> param_parses param)
         (selectedDistributionParameters state) ->
  exists m,
    convert_distribution_parameters_to_valid_type state = Ok m /\
    map fst m = keep_first (valid_names (selectedDistributionParameters state)) /\
    NoDup (map fst m) /\
    (forall before param after s,
       selectedDistributionParameters state = before ++ param :: after ->
       param_valid param -> param !! "parameter_name" = Some (PyStr s) ->
       (forall other, other ∈ after -> param_valid other ->
                      other !! "parameter_name" <> Some (PyStr s)) ->
       exists v x,
         param !! "parameter_default_value" = Some v /\ py_float v = Ok x /\
         dict_get m (PyStr s) = Some x /\
         (forall x', (PyStr s, x') ∈ m -> x' = x)).
Proof.
  intros Hwf Hparses. set (params := selectedDistributionParameters state) in *.
  exists (store_all [] (omap param_item params)).
  assert (Hstr := param_items_str _ Hwf).
  assert (Hkeys : map fst (store_all [] (omap param_item params))
                  = keep_first (valid_names params)).
  { rewrite (store_all_keys_keep_first _ Hstr).
    by rewrite (param_items_names _ Hparses (wf_param_name _ Hwf)). }
  assert (Hnodup : NoDup (map fst (store_all [] (omap param_item params)))).
  { rewrite (store_all_keys_keep_first _ Hstr). by apply keep_first_NoDup. }
  split; [|split; [|split]].
  - unfold convert_distribution_parameters_to_valid_type. by apply comprehension_ok.
  - exact Hkeys.
  - exact Hnodup.
  - intros before param after s Hsplit Hvalid Hname Hlast.
    assert (Hin : param ∈ params).
    { rewrite Hsplit, elem_of_app, elem_of_cons. auto. }
    rewrite Forall_forall in Hparses. destruct (Hparses _ Hin Hvalid) as (v & x & Hv & Hx).
    assert (Hitem : param_item param = Some (PyStr s, x))
      by (apply param_item_Some; eauto).
    assert (Hget : dict_get (store_all [] (omap param_item params)) (PyStr s) = Some x).
    { rewrite Hsplit, omap_app. cbn [omap list_omap]. rewrite Hitem.
      assert (Hwf' : Forall wf_param after).
      { rewrite Hsplit in Hwf. apply Forall_app in Hwf as [_ Hwf].
        by apply Forall_cons in Hwf as [_ Hwf]. }
      apply dict_get_store_all_last; [by apply param_items_str|].
      intros Hk. apply list_elem_of_In, in_map_iff in Hk as ([k' x'] & Hfst & Hk).
      simpl in Hfst. subst k'.
      apply list_elem_of_In, list_elem_of_omap in Hk as (other & Hother & Hi).
      apply param_item_Some in Hi as (Hvalid' & Hname' & _).
      by apply (Hlast _ Hother Hvalid'). }
    exists v, x. repeat split; [assumption..|].
    intros x' Hin'. apply (dict_get_entry _ _ _ Hnodup) in Hin'. congruence.
Qed.

(* ===================================================================== *)
(** * The rendered distribution *)
(* ===================================================================== *)

Lemma is_twiss_true (state : State) :
  is_twiss state = true <-> selectedDistributionType state = PyStr "Twiss".
Proof. apply py_eqb_str_r. Qed.

(** C2. When the selected distribution type is ["Twiss"], every parameter
    of the validated mapping is rendered on a line with 8 spaces in front,
    the lines standing between [**twiss(] and its closing parenthesis; for
    any other type the lines have 4 spaces in front and stand directly in
    the constructor call. An exception of the validation is passed on. *)
Theorem twiss_indentation (state : State) :
  (selectedDistributionType state = PyStr "Twiss" ->
   build_distribution_list state =
     (parameters ← convert_distribution_parameters_to_valid_type state;
      Ok ("distr = distribution." +:+ py_str (selectedDistribution state) +:+ "(" +:+ nl
          +:+ "    **twiss(" +:+ nl
          +:+ str_join ("," +:+ nl)
                (map (fun item => "        " +:+ py_str (fst item) +:+ "=" +:+ float_repr (snd item))
                     parameters)
          +:+ "," +:+ nl
          +:+ "    )" +:+ nl
          +:+ ")"))) /\
  (selectedDistributionType state <> PyStr "Twiss" ->
   build_distribution_list state =
     (parameters ← convert_distribution_parameters_to_valid_type state;
      Ok ("distr = distribution." +:+ py_str (selectedDistribution state) +:+ "(" +:+ nl
          +:+ str_join ("," +:+ nl)
                (map (fun item => "    " +:+ py_str (fst item) +:+ "=" +:+ float_repr (snd item))
                     parameters)
          +:+ "," +:+ nl
          +:+ ")"))).
Proof.
  unfold build_distribution_list. split; intros Htype.
  - apply is_twiss_true in Htype. rewrite Htype. reflexivity.
  - destruct (is_twiss state) eqn:E; [by apply is_twiss_true in E | reflexivity].
Qed.

(* ===================================================================== *)
(** * The rendered lattice *)
(* ===================================================================== *)

Lemma mapM_Ok {A B : Type} (f : A -> result B) (l : list A) (ys : list B) :
  mapM f l = Ok ys <-> Forall2 (fun x y => f x = Ok y) l ys.
Proof.
  revert ys. induction l as [|x l IH]; intros ys; simpl.
  - split; [intros [= <-]; constructor | by inversion 1].
  - split.
    + intros H. apply bind_inv_Ok in H as (y & Hy & H).
      apply bind_inv_Ok in H as (k & Hk & [= <-]). constructor; [assumption | by apply IH].
    + inversion 1 as [|? y ? k Hy Hk]; subst. rewrite Hy. simpl.
      apply IH in Hk. rewrite Hk. reflexivity.
Qed.

(** The first item that raises decides the exception. *)
Lemma mapM_Raise_first {A B : Type} (f : A -> result B) (before after : list A)
    (x : A) (ys : list B) (e : pyexn) :
  mapM f before = Ok ys -> f x = Raise e -> mapM f (before ++ x :: after) = Raise e.
Proof.
  revert ys. induction before as [|b before IH]; intros ys; simpl.
  - intros _ ->. reflexivity.
  - intros H Hx. apply bind_inv_Ok in H as (y & -> & H).
    apply bind_inv_Ok in H as (k & Hk & _). simpl. rewrite (IH _ Hk Hx). reflexivity.
Qed.

Lemma mapM_Raise {A B : Type} (f : A -> result B) (l : list A) (x : A) :
  x ∈ l -> (exists e, f x = Raise e) -> exists e, mapM f l = Raise e.
Proof.
  induction l as [|y l IH]; intros Hin Hx; [by apply elem_of_nil in Hin|].
  simpl. destruct (f y) as [b|e] eqn:Ey; simpl; [|eauto].
  apply elem_of_cons in Hin as [->|Hin].
  - destruct Hx as [e He]. congruence.
  - destruct (IH Hin Hx) as [e ->]. simpl. eauto.
Qed.

Section LatticeTheorems.

Variable checker : gmap string pyval -> result (list (pyval * pyval)).

Lemma element_call_Ok (element : gmap string pyval) (call : string) :
  element_call checker element = Ok call <->
  exists name parameters,
    element !! "name" = Some name /\ checker element = Ok parameters /\
    call = "elements." +:+ py_str name +:+ "("
           +:+ str_join ", " (map argument_text parameters) +:+ ")".
Proof.
  unfold element_call, getitem. destruct (element !! "name") as [name|]; simpl.
  - destruct (checker element) as [ps|e]; simpl; split.
    + intros [= <-]. eauto.
    + intros (? & ? & [= <-] & [= <-] & ->). reflexivity.
    + discriminate.
    + intros (? & ? & _ & ? & _). discriminate.
  - split; [discriminate | intros (? & ? & ? & _); discriminate].
Qed.

Lemma element_call_nameless (element : gmap string pyval) :
  element !! "name" = None -> element_call checker element = Raise KeyError.
Proof. intros H. unfold element_call, getitem. rewrite H. reflexivity. Qed.

Lemma build_lattice_list_Ok (state : State) (text : string) :
  build_lattice_list checker state = Ok text <->
  exists calls,
    mapM (element_call checker) (selectedLatticeList state) = Ok calls /\
    text = "lattice_configuration = [" +:+ nl +:+ "    "
           +:+ str_join ("," +:+ nl +:+ "    ") calls +:+ nl +:+ "]".
Proof.
  unfold build_lattice_list.
  destruct (mapM (element_call checker) (selectedLatticeList state)) as [calls|e];
    simpl; split.
  - intros [= <-]. eauto.
  - intros (? & [= <-] & ->). reflexivity.
  - discriminate.
  - intros (? & ? & _). discriminate.
Qed.

(** C3. When every element of the lattice list has a name and the
    parameter checker accepts it, the rendered list holds one constructor
    call [elements.<name>(key=value, ...)] for each element, the calls
    standing in the order of the elements (element i gives call i, none
    is dropped or merged), and two neighbours are separated by a comma, a
    newline and four spaces. *)
Theorem lattice_calls_in_order (state : State) :
  Forall (fun element => is_Some (element !! "name") /\
                         exists parameters, checker element = Ok parameters)
         (selectedLatticeList state) ->
  exists calls,
    build_lattice_list checker state
    = Ok ("lattice_configuration = [" +:+ nl +:+ "    "
          +:+ str_join ("," +:+ nl +:+ "    ") calls +:+ nl +:+ "]") /\
    Forall2 (fun element call =>
               exists name parameters,
                 element !! "name" = Some name /\ checker element = Ok parameters /\
                 call = "elements." +:+ py_str name +:+ "("
                        +:+ str_join ", " (map argument_text parameters) +:+ ")")
            (selectedLatticeList state) calls.
Proof.
  intros Hall.
  assert (Hcalls : exists calls,
            Forall2 (fun element call => element_call checker element = Ok call)
                    (selectedLatticeList state) calls).
  { induction Hall as [|element rest ([name Hname] & ps & Hps) _ [calls IH]].
    - exists []. constructor.
    - eexists (_ :: calls). constructor; [|exact IH].
      apply element_call_Ok. eauto. }
  destruct Hcalls as [calls Hcalls]. exists calls. split.
  - apply build_lattice_list_Ok. exists calls. split; [by apply mapM_Ok | reflexivity].
  - eapply Forall2_impl; [exact Hcalls|]. intros element call. apply element_call_Ok.
Qed.

Lemma element_calls_exist (elements : list (gmap string pyval)) :
  Forall (fun element => is_Some (element !! "name") /\
                         exists parameters, checker element = Ok parameters)
         elements ->
  exists calls,
    Forall2 (fun element call => element_call checker element = Ok call) elements calls.
Proof.
  induction 1 as [|element rest ([name Hname] & ps & Hps) _ [calls IH]].
  - exists []. constructor.
  - eexists (_ :: calls). constructor; [|exact IH].
    apply element_call_Ok. eauto.
Qed.

(** C10. The constructor identifier of a rendered element is the value
    of its ["name"] field. When every element has that field and the
    parameter checker accepts it, the list is rendered and the call of
    each element is [elements.<name>(key=value, ...)] with the element's
    own name; whenever the list is rendered, every element has the field
    and its call begins with [elements.<name>(]. An element without the
    field makes [build_lattice_list] raise; it is [KeyError] when the
    elements before it are rendered without error. *)
Theorem lattice_element_needs_name (state : State) :
  (Forall (fun element => is_Some (element !! "name") /\
                          exists parameters, checker element = Ok parameters)
          (selectedLatticeList state) ->
   exists calls,
     build_lattice_list checker state
     = Ok ("lattice_configuration = [" +:+ nl +:+ "    "
           +:+ str_join ("," +:+ nl +:+ "    ") calls +:+ nl +:+ "]") /\
     Forall2 (fun element call =>
                exists name parameters,
                  element !! "name" = Some name /\ checker element = Ok parameters /\
                  call = "elements." +:+ py_str name +:+ "("
                         +:+ str_join ", " (map argument_text parameters) +:+ ")")
             (selectedLatticeList state) calls) /\
  (forall text, build_lattice_list checker state = Ok text ->
     exists calls,
       text = "lattice_configuration = [" +:+ nl +:+ "    "
              +:+ str_join ("," +:+ nl +:+ "    ") calls +:+ nl +:+ "]" /\
       Forall2 (fun element call =>
                  exists name rest,
                    element !! "name" = Some name /\
                    call = "elements." +:+ py_str name +:+ "(" +:+ rest)
               (selectedLatticeList state) calls) /\
  (forall before element after,
     selectedLatticeList state = before ++ element :: after ->
     element !! "name" = None ->
     (exists e, build_lattice_list checker state = Raise e) /\
     (forall calls, mapM (element_call checker) before = Ok calls ->
                    build_lattice_list checker state = Raise KeyError)).
Proof.
  split; [|split].
  - intros Hall. destruct (element_calls_exist _ Hall) as [calls Hcalls].
    exists calls. split.
    + apply build_lattice_list_Ok. exists calls. split; [by apply mapM_Ok | reflexivity].
    + eapply Forall2_impl; [exact Hcalls|]. intros element call. apply element_call_Ok.
  - intros text H. apply build_lattice_list_Ok in H as (calls & Hcalls & ->).
    exists calls. split; [reflexivity|].
    apply mapM_Ok in Hcalls. eapply Forall2_impl; [exact Hcalls|].
    intros element call Hcall.
    apply element_call_Ok in Hcall as (name & ps & Hname & _ & ->). eauto.
  - intros before element after Hsplit Hname.
    apply element_call_nameless in Hname. split.
    + destruct (mapM_Raise (element_call checker) (selectedLatticeList state) element)
        as [e He]; [rewrite Hsplit, elem_of_app, elem_of_cons; auto | eauto |].
      exists e. unfold build_lattice_list. rewrite He. reflexivity.
    + intros calls Hcalls. unfold build_lattice_list.
      rewrite Hsplit, (mapM_Raise_first _ _ _ _ _ _ Hcalls Hname). reflexivity.
Qed.

End LatticeTheorems.

(* ===================================================================== *)
(** * The exported script *)
(* ===================================================================== *)

Lemma append_assoc (a b c : string) : (a +:+ b) +:+ c = a +:+ (b +:+ c).
Proof.
  induction a as [|ch a IH]; [reflexivity|].
  change (String ch ((a +:+ b) +:+ c) = String ch (a +:+ (b +:+ c))).
  by rewrite IH.
Qed.

Lemma chars_app (a b : string) : chars (a +:+ b) = chars a ++ chars b.
Proof.
  unfold chars. induction a as [|c a IH]; [reflexivity|].
  change (c :: list_ascii_of_string (a +:+ b)
          = c :: list_ascii_of_string a ++ list_ascii_of_string b).
  by rewrite IH.
Qed.

Lemma in_order_here (p : string) (rest : list string) (s : string) :
  in_order rest s -> in_order (p :: rest) (p +:+ s).
Proof. intros H. exists "", s. split; [reflexivity | exact H]. Qed.

Lemma in_order_skip (a : string) (pats : list string) (s : string) :
  in_order pats s -> in_order pats (a +:+ s).
Proof.
  destruct pats as [|p rest]; cbn [in_order]; [trivial|].
  intros (before & after & -> & H). exists (a +:+ before), after.
  split; [by rewrite append_assoc | exact H].
Qed.

(** The statements of the engine's life cycle, as the template writes them. *)
Lemma script_in_order (state : State) (distribution lattice : string) :
  in_order
    [ "sim.particle_shape = " +:+ py_str (particle_shape state);
      "sim.space_charge = False";
      "sim.csr = False";
      "sim.slice_step_diagnostics = True";
      "sim.init_grids()";
      "ref = sim.particle_container().ref_particle()";
      "ref.set_charge_qe(" +:+ py_str (charge_qe state) +:+ ").set_mass_MeV("
        +:+ py_str (mass_MeV state) +:+ ").set_kin_energy_MeV(kin_energy_MeV)";
      distribution;
      "sim.add_particles(bunch_charge_C, distr, npart)";
      lattice;
      "sim.lattice.extend(lattice_configuration)";
      "sim.track_particles()";
      "sim.finalize()" ]
    (str_join nl (script_lines state distribution lattice)).
Proof.
  cbn [script_lines str_join].
  repeat first
    [ apply in_order_here
    | exact I
    | apply in_order_skip ].
Qed.

Section ScriptTheorems.

Variable checker : gmap string pyval -> result (list (pyval * pyval)).

Lemma input_file_Ok (state : State) (script : string) :
  input_file checker state = Ok script <->
  exists distribution lattice,
    build_distribution_list state = Ok distribution /\
    build_lattice_list checker state = Ok lattice /\
    script = str_join nl (script_lines state distribution lattice).
Proof.
  unfold input_file.
  destruct (build_distribution_list state) as [d|e]; simpl;
    [destruct (build_lattice_list checker state) as [l|e]; simpl|]; split;
    try discriminate.
  - intros [= <-]. eauto.
  - intros (? & ? & [= <-] & [= <-] & ->). reflexivity.
  - intros (? & ? & _ & ? & _). discriminate.
  - intros (? & ? & ? & _). discriminate.
Qed.

(** An exception of the distribution block leaves [input_file] as it is. *)
Lemma input_file_Raise (state : State) (e : pyexn) :
  build_distribution_list state = Raise e -> input_file checker state = Raise e.
Proof. intros H. unfold input_file. rewrite H. reflexivity. Qed.

(** C8. A script is produced exactly when the distribution block and the
    lattice block are rendered, and then its text holds, one after the
    other: the four flag assignments, [sim.init_grids()], the reference
    particle with its three chained setters, the distribution block
    (which begins [distr = distribution.]), [sim.add_particles(...)], the
    lattice block (which begins [lattice_configuration = []),
    [sim.lattice.extend(...)], [sim.track_particles()], [sim.finalize()]. *)
Theorem lifecycle_order (state : State) :
  (forall distribution lattice,
     build_distribution_list state = Ok distribution ->
     build_lattice_list checker state = Ok lattice ->
     exists script, input_file checker state = Ok script) /\
  (forall script, input_file checker state = Ok script ->
     exists distribution lattice,
       build_distribution_list state = Ok distribution /\
       build_lattice_list checker state = Ok lattice /\
       (exists rest, distribution = "distr = distribution." +:+ rest) /\
       (exists rest, lattice = "lattice_configuration = [" +:+ rest) /\
       in_order
         [ "sim.particle_shape = " +:+ py_str (particle_shape state);
           "sim.space_charge = False";
           "sim.csr = False";
           "sim.slice_step_diagnostics = True";
           "sim.init_grids()";
           "ref = sim.particle_container().ref_particle()";
           "ref.set_charge_qe(" +:+ py_str (charge_qe state) +:+ ").set_mass_MeV("
             +:+ py_str (mass_MeV state) +:+ ").set_kin_energy_MeV(kin_energy_MeV)";
           distribution;
           "sim.add_particles(bunch_charge_C, distr, npart)";
           lattice;
           "sim.lattice.extend(lattice_configuration)";
           "sim.track_particles()";
           "sim.finalize()" ]
         script).
Proof.
  split.
  - intros distribution lattice Hd Hl. eexists. apply input_file_Ok. eauto.
  - intros script H. apply input_file_Ok in H as (distribution & lattice & Hd & Hl & ->).
    exists distribution, lattice. split; [assumption|]. split; [assumption|].
    split; [|split; [|apply script_in_order]].
    + unfold build_distribution_list in Hd.
      apply bind_inv_Ok in Hd as (m & _ & Hd).
      destruct (is_twiss state); injection Hd as <-; eexists; reflexivity.
    + apply build_lattice_list_Ok in Hl as (calls & _ & ->).
      eexists; reflexivity.
Qed.

End ScriptTheorems.

(* ===================================================================== *)
(** * A default value that is not a number *)
(* ===================================================================== *)

(** [float] raises [ValueError] on a text that is not a number, and the
    round of the comprehension passes it on. *)
Lemma comprehension_step_unparseable (d : spec_float) (acc : list (pyval * spec_float))
    (param : gmap string pyval) (name : pyval) (s : string) :
  param_valid param ->
  param !! "parameter_name" = Some name ->
  param !! "parameter_default_value" = Some (PyStr s) ->
  float_of_str s = None ->
  comprehension_step d acc param = Raise ValueError.
Proof.
  unfold param_valid. intros Hvalid Hn Hv Ex.
  unfold comprehension_step, filter_expr, value_expr, getitem.
  rewrite Hvalid, !bind_Ok.
  change (py_eqb (PyList []) (PyList [])) with true. cbv iota.
  rewrite Hn, bind_Ok, Hv, bind_Ok. unfold py_float. rewrite Ex. reflexivity.
Qed.

(** With strings as default values the comprehension either raises
    [ValueError], or returns after [float] has read every valid record. *)
Lemma comprehension_str_values (d : spec_float) (params : list (gmap string pyval)) :
  Forall wf_param params ->
  Forall (fun param => param_valid param ->
                       exists s, param !! "parameter_default_value" = Some (PyStr s)) params ->
  forall acc,
    comprehension d acc params = Raise ValueError \/
    ((exists m, comprehension d acc params = Ok m) /\
     Forall (fun param => param_valid param -> param_parses param) params).
Proof.
  induction params as [|param rest IH]; intros Hwf Hstr acc.
  - right. split; [simpl; eauto | constructor].
  - apply Forall_cons in Hwf as [Hwf Hwfs]. apply Forall_cons in Hstr as [Hs Hss].
    destruct (classic_valid param) as [Hvalid|Hinvalid].
    + destruct (Hs Hvalid) as [s Hv].
      destruct (float_of_str s) as [x|] eqn:Ex.
      * assert (Hp : param_valid param -> param_parses param).
        { intros _. exists (PyStr s), x. simpl. by rewrite Ex. }
        cbn [comprehension]. rewrite (comprehension_step_ok _ _ _ Hwf Hp). simpl.
        destruct (IH Hwfs Hss
                    match param_item param with
                    | Some item => dict_store acc (fst item) (snd item)
                    | None => acc
                    end) as [->|[Hm Hall]]; [by left|].
        right. split; [exact Hm | by constructor].
      * left. cbn [comprehension]. destruct Hwf as ([n Hn] & _ & _).
        rewrite (comprehension_step_unparseable _ _ _ _ _ Hvalid Hn Hv Ex). reflexivity.
    + assert (Hp : param_valid param -> param_parses param) by tauto.
      cbn [comprehension]. rewrite (comprehension_step_ok _ _ _ Hwf Hp). simpl.
      rewrite (param_item_invalid _ Hinvalid).
      destruct (IH Hwfs Hss acc) as [->|[Hm Hall]]; [by left|].
      right. split; [exact Hm | by constructor].
Qed.

(** C6 (as the code has it). For well-formed parameter records whose
    valid default values are strings: when a record with an empty error
    list has a default value that is not the text of a number, the
    validation raises the [ValueError] of [float]; nothing catches it, so
    that [build_distribution_list] and [input_file] raise it as well. *)
Theorem unparseable_value_raises_ValueError (state : State) :
  Forall wf_param (selectedDistributionParameters state) ->
  Forall (fun param => param_valid param ->
                       exists s, param !! "parameter_default_value" = Some (PyStr s))
         (selectedDistributionParameters state) ->
  (exists param s,
     param ∈ selectedDistributionParameters state /\ param_valid param /\
     param !! "parameter_default_value" = Some (PyStr s) /\ float_of_str s = None) ->
  convert_distribution_parameters_to_valid_type state = Raise ValueError /\
  build_distribution_list state = Raise ValueError /\
  (forall checker, input_file checker state = Raise ValueError).
Proof.
  intros Hwf Hstr (param & s & Hin & Hvalid & Hv & Ex).
  assert (H : convert_distribution_parameters_to_valid_type state = Raise ValueError).
  { unfold convert_distribution_parameters_to_valid_type.
    destruct (comprehension_str_values float_zero _ Hwf Hstr []) as [H|[_ Hall]]; [exact H|].
    rewrite Forall_forall in Hall. destruct (Hall _ Hin Hvalid) as (v & x & Hv' & Hx).
    rewrite Hv in Hv'. injection Hv' as <-. simpl in Hx. rewrite Ex in Hx. discriminate. }
  assert (H' : build_distribution_list state = Raise ValueError).
  { unfold build_distribution_list. rewrite H. reflexivity. }
  split; [exact H|]. split; [exact H'|].
  intros checker. by apply input_file_Raise.
Qed.

(* ===================================================================== *)
(** * Reading the rendered call back *)
(* ===================================================================== *)

(** ** The tokens of a text before a comma *)

Lemma name_start_not_space (c : ascii) : is_name_start c = true -> is_space c = false.
Proof. each_char c; vm_compute; congruence. Qed.

Lemma name_start_not_digit (c : ascii) : is_name_start c = true -> is_digit c = false.
Proof. each_char c; vm_compute; congruence. Qed.

Lemma span_length (f : ascii -> bool) (l : list ascii) :
  (length (snd (span f l)) <= length l)%nat.
Proof.
  induction l as [|c l IH]; cbn [span]; [done|].
  destruct (f c); [|done]. destruct (span f l). cbn [snd length] in *. lia.
Qed.

Lemma scan_exponent_length (l : list ascii) :
  (length (snd (scan_exponent l)) <= length l)%nat.
Proof.
  destruct l as [|c r]; cbn [scan_exponent]; [done|].
  destruct (ascii_eqb (to_lower c) "e"); [|done].
  set (sr := match r with
             | d :: r0 => if ascii_eqb d "-" || ascii_eqb d "+" then ([d], r0) else ([], r)
             | [] => ([], r)
             end).
  assert (Hsr : (length (snd sr) <= length r)%nat).
  { subst sr. destruct r as [|d r0]; [done|].
    destruct (ascii_eqb d "-" || ascii_eqb d "+"); cbn [snd length]; lia. }
  destruct sr as [sign r']. cbn [snd] in Hsr.
  pose proof (span_length is_digit_or_underscore r') as Hs.
  destruct (span is_digit_or_underscore r') as [ds rest]. cbn [snd] in Hs.
  destruct ds; cbn [snd length]; lia.
Qed.

Lemma scan_number_length (c : ascii) (r : list ascii) :
  starts_number c r = true ->
  (length (snd (scan_number (c :: r))) <= length r)%nat.
Proof.
  intros Hstart. unfold scan_number. cbn [span].
  assert (Hdot : is_digit c = false -> ascii_eqb c "." = true).
  { intros Hd. unfold starts_number in Hstart. rewrite Hd in Hstart.
    cbn [orb] in Hstart. by apply andb_true_iff in Hstart as [-> _]. }
  unfold is_digit_or_underscore at 1.
  destruct (is_digit c) eqn:Hd; cbn [orb].
  - pose proof (span_length is_digit_or_underscore r) as H1.
    destruct (span is_digit_or_underscore r) as [ip r1]. cbn [snd] in H1.
    set (fr := match r1 with
               | c0 :: r0 =>
                   if ascii_eqb c0 "."
                   then let '(ds, r') := span is_digit_or_underscore r0 in (c0 :: ds, r')
                   else ([], r1)
               | [] => ([], r1)
               end).
    assert (H2 : (length (snd fr) <= length r1)%nat).
    { subst fr. destruct r1 as [|c0 r0]; [done|].
      destruct (ascii_eqb c0 "."); [|done].
      pose proof (span_length is_digit_or_underscore r0) as H.
      destruct (span is_digit_or_underscore r0). cbn [snd length] in *. lia. }
    destruct fr as [fp r2]. cbn [snd] in H2.
    pose proof (scan_exponent_length r2) as H3.
    destruct (scan_exponent r2) as [ex r3]. cbn [snd] in *. lia.
  - specialize (Hdot eq_refl).
    assert (Hu : ascii_eqb c "_" = false).
    { unfold ascii_eqb in *. apply Ascii.eqb_eq in Hdot as ->. reflexivity. }
    rewrite Hu, Hdot.
    pose proof (span_length is_digit_or_underscore r) as H1.
    destruct (span is_digit_or_underscore r) as [ds r2]. cbn [snd] in H1.
    pose proof (scan_exponent_length r2) as H3.
    destruct (scan_exponent r2) as [ex r3]. cbn [snd] in *. lia.
Qed.

Lemma span_name_tail (c : ascii) (r : list ascii) :
  is_name_start c = true ->
  span is_name_char (c :: r)
  = (c :: fst (span is_name_char r), snd (span is_name_char r)).
Proof.
  intros Hc. cbn [span]. unfold is_name_char at 1. rewrite Hc. cbn [orb].
  by destruct (span is_name_char r).
Qed.

(** Fuel beyond the length of the text does not matter. *)
Lemma tokenize_fuel (n : nat) :
  forall (m : nat) (l : list ascii),
    (length l <= n)%nat -> (length l <= m)%nat -> tokenize n l = tokenize m l.
Proof.
  induction n as [|n IH]; intros m l Hn Hm.
  - destruct l; [by destruct m | cbn [length] in Hn; lia].
  - destruct l as [|c r]; [by destruct m|].
    destruct m as [|m]; [cbn [length] in Hm; lia|].
    cbn [length] in Hn, Hm. cbn [tokenize].
    destruct (is_space c); [apply IH; lia|].
    destruct (is_name_start c) eqn:Hname.
    { rewrite (span_name_tail _ _ Hname).
      pose proof (span_length is_name_char r) as Hlen.
      f_equal. apply IH; lia. }
    destruct (starts_number c r) eqn:Hnum.
    { pose proof (scan_number_length _ _ Hnum) as Hlen.
      destruct (scan_number (c :: r)) as [w rest]. cbn [snd] in Hlen.
      f_equal. apply IH; lia. }
    repeat match goal with
           | |- (if ?b then _ else _) = _ => destruct b; [f_equal; apply IH; lia|]
           end.
    destruct (ascii_eqb c "*"); [|f_equal; apply IH; lia].
    destruct r as [|d r']; [reflexivity|]. cbn [length] in Hn, Hm.
    destruct (ascii_eqb d "*"); f_equal; apply IH; cbn [length]; lia.
Qed.

(** A character outside the class ends a run where the text would end. *)
Lemma span_app_stop (f : ascii -> bool) (w : list ascii) (c : ascii) (r : list ascii) :
  f c = false ->
  span f (w ++ c :: r) = (fst (span f w), snd (span f w) ++ c :: r).
Proof.
  intros Hc. induction w as [|a w IH]; cbn [app span].
  - by rewrite Hc.
  - destruct (f a); [|reflexivity]. rewrite IH. by destruct (span f w).
Qed.

Lemma span_all (f : ascii -> bool) (w : list ascii) (c : ascii) (r : list ascii) :
  forallb f w = true -> f c = false -> span f (w ++ c :: r) = (w, c :: r).
Proof.
  intros Hw Hc. induction w as [|a w IH]; cbn [app span].
  - by rewrite Hc.
  - cbn [forallb] in Hw. apply andb_true_iff in Hw as [-> Hw]. by rewrite (IH Hw).
Qed.


Lemma starts_number_before_comma (c : ascii) (w r : list ascii) :
  starts_number c (w ++ comma :: r) = starts_number c w.
Proof. by destruct w. Qed.

Lemma scan_exponent_before_comma (w r : list ascii) :
  scan_exponent (w ++ comma :: r)
  = (fst (scan_exponent w), snd (scan_exponent w) ++ comma :: r).
Proof.
  destruct w as [|c w]; [reflexivity|]. cbn [app scan_exponent].
  destruct (ascii_eqb (to_lower c) "e"); [|reflexivity].
  destruct w as [|d w].
  - reflexivity.
  - cbn [app]. destruct (ascii_eqb d "-" || ascii_eqb d "+").
    + rewrite (span_app_stop is_digit_or_underscore w comma r eq_refl).
      destruct (span is_digit_or_underscore w) as [ds rest]. cbn [fst snd].
      by destruct ds.
    + change (d :: w ++ comma :: r) with ((d :: w) ++ comma :: r).
      rewrite (span_app_stop is_digit_or_underscore (d :: w) comma r eq_refl).
      destruct (span is_digit_or_underscore (d :: w)) as [ds rest]. cbn [fst snd].
      by destruct ds.
Qed.

Lemma scan_number_before_comma (w r : list ascii) :
  scan_number (w ++ comma :: r)
  = (fst (scan_number w), snd (scan_number w) ++ comma :: r).
Proof.
  unfold scan_number.
  rewrite (span_app_stop is_digit_or_underscore w comma r eq_refl).
  destruct (span is_digit_or_underscore w) as [ip r1]. cbn [fst snd].
  destruct r1 as [|c r0].
  - cbn [app]. change (ascii_eqb comma ".") with false. cbv iota.
    reflexivity.
  - cbn [app]. destruct (ascii_eqb c ".").
    + rewrite (span_app_stop is_digit_or_underscore r0 comma r eq_refl).
      destruct (span is_digit_or_underscore r0) as [ds r2]. cbn [fst snd].
      rewrite scan_exponent_before_comma. by destruct (scan_exponent r2).
    + change (c :: r0 ++ comma :: r) with ((c :: r0) ++ comma :: r).
      rewrite (scan_exponent_before_comma (c :: r0) r).
      by destruct (scan_exponent (c :: r0)).
Qed.

(** A comma ends the token before it. *)
Lemma tokenize_before_comma (n : nat) :
  forall (w r : list ascii),
    (length w <= n)%nat ->
    tokenize (n + S (length r)) (w ++ comma :: r)
    = tokenize n w ++ TComma :: tokenize (length r) r.
Proof.
  assert (Hzero : forall k r, (length r <= k)%nat ->
            tokenize (S k) (comma :: r) = TComma :: tokenize (length r) r).
  { intros k r Hk. cbn [tokenize]. change (is_space comma) with false.
    change (is_name_start comma) with false.
    replace (starts_number comma r) with false by by destruct r.
    cbv iota. change (ascii_eqb comma "(") with false.
    change (ascii_eqb comma ")") with false. change (ascii_eqb comma "[") with false.
    change (ascii_eqb comma "]") with false. change (ascii_eqb comma ",") with true.
    cbv iota. f_equal. by apply tokenize_fuel. }
  induction n as [|n IH]; intros w r Hn.
  - destruct w; [|cbn [length] in Hn; lia]. cbn [app plus tokenize]. by apply Hzero.
  - destruct w as [|c w].
    + cbn [app]. rewrite (Hzero (n + S (length r))%nat) by lia. by destruct n.
    + cbn [length] in Hn. cbn [app plus tokenize].
      destruct (is_space c); [apply IH; lia|].
      destruct (is_name_start c) eqn:Hname.
      { rewrite !(span_name_tail _ _ Hname).
        rewrite (span_app_stop is_name_char w comma r eq_refl). cbn [fst snd].
        pose proof (span_length is_name_char w) as Hlen.
        cbn [app]. f_equal. apply IH. lia. }
      rewrite starts_number_before_comma.
      destruct (starts_number c w) eqn:Hnum.
      { pose proof (scan_number_length _ _ Hnum) as Hlen.
        change (c :: w ++ comma :: r) with ((c :: w) ++ comma :: r).
        rewrite (scan_number_before_comma (c :: w) r).
        destruct (scan_number (c :: w)) as [t rest]. cbn [fst snd] in *.
        cbn [app]. f_equal. apply IH. lia. }
      repeat match goal with
             | |- (if ?b then _ else _) = _ =>
                 lazymatch b with
                 | ascii_eqb c "*" => fail
                 | _ => destruct b; [cbn [app]; f_equal; apply IH; lia|]
                 end
             end.
      destruct (ascii_eqb c "*"); [|cbn [app]; f_equal; apply IH; lia].
      destruct w as [|d w].
      * cbn [app]. change (ascii_eqb comma "*") with false. cbv iota.
        f_equal. rewrite Nat.add_succ_r. apply Hzero. lia.
      * cbn [app length] in *. destruct (ascii_eqb d "*").
        -- cbn [app]. f_equal. apply IH. lia.
        -- cbn [app]. f_equal. apply (IH (d :: w) r). cbn [length]. lia.
Qed.


Lemma tok_before_comma (w r : list ascii) :
  tok (w ++ comma :: r) = tok w ++ TComma :: tok r.
Proof.
  unfold tok. rewrite length_app. cbn [length].
  by apply tokenize_before_comma.
Qed.

Lemma tok_space (c : ascii) (l : list ascii) :
  is_space c = true -> tok (c :: l) = tok l.
Proof. intros H. unfold tok. cbn [length tokenize]. by rewrite H. Qed.

Lemma tok_spaces (w l : list ascii) :
  forallb is_space w = true -> tok (w ++ l) = tok l.
Proof.
  induction w as [|c w IH]; [done|]. cbn [forallb app].
  intros H. apply andb_true_iff in H as [Hc Hw]. rewrite (tok_space _ _ Hc). by apply IH.
Qed.

Lemma chars_length (s : string) : String.length s = length (chars s).
Proof. unfold chars. induction s as [|c s IH]; [done|]. cbn. by rewrite IH. Qed.

Lemma tokens_of_tok (s : string) : tokens_of s = tok (chars s).
Proof. unfold tokens_of, tok. by rewrite chars_length. Qed.

Lemma str_of_chars_chars (s : string) : str_of_chars (chars s) = s.
Proof. apply string_of_list_ascii_of_string. Qed.

(** An name_shape before a character that cannot continue it. *)
Lemma tok_name (s : string) (d : ascii) (r : list ascii) :
  name_shape s = true -> is_name_char d = false ->
  tok (chars s ++ d :: r) = TName s :: tok (d :: r).
Proof.
  unfold name_shape. intros Hs Hd. rewrite <- (str_of_chars_chars s) at 2.
  destruct (chars s) as [|c w]; [discriminate|].
  apply andb_true_iff in Hs as [Hc Hw].
  unfold tok at 1. cbn [app length tokenize].
  rewrite (name_start_not_space _ Hc), Hc.
  change (c :: w ++ d :: r) with ((c :: w) ++ d :: r).
  rewrite span_all; [|cbn [forallb]; unfold is_name_char at 1; by rewrite Hc, Hw | exact Hd].
  f_equal. apply tokenize_fuel; rewrite ?length_app; cbn [length]; lia.
Qed.

Lemma tok_eq (l : list ascii) : tok ("="%char :: l) = TEq :: tok l.
Proof. unfold tok. cbn [length]. by destruct l. Qed.

Lemma tok_lpar (l : list ascii) : tok ("("%char :: l) = TLPar :: tok l.
Proof. unfold tok. cbn [length]. by destruct l. Qed.

Lemma tok_dot_name (c : ascii) (l : list ascii) :
  is_name_start c = true -> tok ("."%char :: c :: l) = TDot :: tok (c :: l).
Proof.
  intros Hc. unfold tok. cbn [length tokenize].
  change (is_space ".") with false. change (is_name_start ".") with false.
  unfold starts_number. change (is_digit ".") with false.
  rewrite (name_start_not_digit _ Hc). reflexivity.
Qed.

Lemma tok_stars (l : list ascii) : tok ("*"%char :: "*"%char :: l) = TStars :: tok l.
Proof.
  unfold tok. cbn [length tokenize].
  change (TStars :: tokenize (S (length l)) l = TStars :: tokenize (length l) l).
  f_equal. apply tokenize_fuel; lia.
Qed.

Lemma tok_line (ind : string) (item : pyval * spec_float) (L : list ascii) :
  forallb is_space (chars ind) = true ->
  name_shape (py_str (fst item)) = true ->
  tok (chars (parameter_line ind item) ++ comma :: L)
  = TName (py_str (fst item)) :: TEq :: tokens_of (float_repr (snd item)) ++ TComma :: tok L.
Proof.
  intros Hind Hkey. unfold parameter_line.
  rewrite !chars_app, <- !app_assoc, (tok_spaces _ _ Hind).
  change (chars "=") with ["="%char]. cbn [app].
  rewrite (tok_name _ "=" _ Hkey eq_refl), tok_eq, tok_before_comma, tokens_of_tok.
  reflexivity.
Qed.

Lemma tok_lines (ind : string) (items : list (pyval * spec_float)) (R : list ascii) :
  forallb is_space (chars ind) = true ->
  items <> [] ->
  Forall (fun item => name_shape (py_str (fst item)) = true) items ->
  tok (chars (str_join ("," +:+ nl) (map (parameter_line ind) items) +:+ "," +:+ nl) ++ R)
  = concat (map item_tokens items) ++ tok R.
Proof.
  intros Hind Hne Hkeys. induction items as [|item rest IH]; [done|].
  apply Forall_cons in Hkeys as [Hkey Hkeys].
  cbn [map concat]. unfold item_tokens at 1. cbn [app]. rewrite <- !app_assoc. cbn [app].
  destruct rest as [|item' rest'].
  - cbn [map str_join concat app].
    rewrite chars_app, <- app_assoc.
    change (chars ("," +:+ nl)) with [comma; newline]. cbn [app].
    rewrite (tok_line _ _ _ Hind Hkey), (tok_space newline) by reflexivity.
    reflexivity.
  - change (str_join ("," +:+ nl) (parameter_line ind item :: map (parameter_line ind) (item' :: rest')))
      with (parameter_line ind item +:+ ("," +:+ nl)
            +:+ str_join ("," +:+ nl) (map (parameter_line ind) (item' :: rest'))).
    rewrite !append_assoc, chars_app, <- app_assoc.
    change ("," +:+ nl +:+ ?x) with (String comma (String newline x)).
    change (chars (String comma (String newline ?x))) with (comma :: newline :: chars x).
    cbn [app].
    rewrite (tok_line _ _ _ Hind Hkey), (tok_space newline) by reflexivity.
    by rewrite (IH ltac:(done) Hkeys).
Qed.


Lemma identifier_shape (s : string) : identifier s = true -> name_shape s = true.
Proof. unfold identifier. intros H. by apply andb_true_iff in H as [H _]. Qed.

Lemma tok_lines_chars (ind : string) (items : list (pyval * spec_float)) (R : list ascii) :
  forallb is_space (chars ind) = true ->
  items <> [] ->
  Forall (fun item => name_shape (py_str (fst item)) = true) items ->
  tok (chars (str_join ("," +:+ nl) (map (parameter_line ind) items))
       ++ comma :: newline :: R)
  = concat (map item_tokens items) ++ tok R.
Proof.
  intros Hind Hne Hkeys. rewrite <- (tok_lines ind items R Hind Hne Hkeys).
  by rewrite chars_app, <- app_assoc.
Qed.

(** The tokens up to the opening parenthesis of the call. *)
Lemma tok_header (N : string) (B : list ascii) :
  name_shape N = true ->
  tok (chars "distr = distribution." ++ chars N ++ "("%char :: newline :: B)
  = TName "distr" :: TEq :: TName "distribution" :: TDot :: TName N :: TLPar :: tok B.
Proof.
  intros HN.
  assert (Hdot : forall l, tok ("."%char :: chars N ++ l) = TDot :: tok (chars N ++ l)).
  { intros l. unfold name_shape in HN. destruct (chars N) as [|c w]; [discriminate|].
    apply andb_true_iff in HN as [Hc _]. by apply tok_dot_name. }
  change (chars "distr = distribution.")
    with (chars "distr" ++ " "%char :: "="%char :: " "%char :: chars "distribution" ++ ["."%char]).
  rewrite <- !app_assoc. cbn [app].
  assert (Hn : name_shape "distr" = true) by (vm_compute; reflexivity).
  name_token tok_name "distr" " "%char Hn. rewrite (tok_space " ") by reflexivity.
  rewrite tok_eq, (tok_space " ") by reflexivity.
  rewrite <- !app_assoc. cbn [app].
  assert (Hd : name_shape "distribution" = true) by (vm_compute; reflexivity).
  name_token tok_name "distribution" "."%char Hd. rewrite Hdot.
  name_token tok_name N "("%char HN. rewrite tok_lpar, (tok_space newline) by reflexivity.
  reflexivity.
Qed.

Lemma tokens_of_flat_call (N : string) (items : list (pyval * spec_float)) :
  name_shape N = true -> items <> [] ->
  Forall (fun item => name_shape (py_str (fst item)) = true) items ->
  tokens_of ("distr = distribution." +:+ N +:+ "(" +:+ nl
             +:+ str_join ("," +:+ nl) (map (parameter_line (str_repeat " " 4)) items)
             +:+ "," +:+ nl +:+ ")")
  = call_tokens false N items.
Proof.
  intros HN Hne Hkeys. rewrite tokens_of_tok, !chars_app.
  change (chars "(") with ["("%char]. change (chars nl) with [newline].
  change (chars ",") with [comma]. cbn [app].
  rewrite (tok_header _ _ HN).
  rewrite (tok_lines_chars (str_repeat " " 4) _ _ eq_refl Hne Hkeys).
  reflexivity.
Qed.

Lemma tokens_of_twiss_call (N : string) (items : list (pyval * spec_float)) :
  name_shape N = true -> items <> [] ->
  Forall (fun item => name_shape (py_str (fst item)) = true) items ->
  tokens_of ("distr = distribution." +:+ N +:+ "(" +:+ nl
             +:+ "    **twiss(" +:+ nl
             +:+ str_join ("," +:+ nl) (map (parameter_line (str_repeat " " 8)) items)
             +:+ "," +:+ nl
             +:+ "    )" +:+ nl
             +:+ ")")
  = call_tokens true N items.
Proof.
  intros HN Hne Hkeys. rewrite tokens_of_tok, !chars_app.
  change (chars "(") with ["("%char]. change (chars nl) with [newline].
  change (chars ",") with [comma]. cbn [app].
  rewrite (tok_header _ _ HN).
  change (chars "    **twiss(")
    with (chars "    " ++ "*"%char :: "*"%char :: chars "twiss" ++ ["("%char]).
  repeat (rewrite <- app_assoc; cbn [app]).
  rewrite (tok_spaces (chars "    ")), tok_stars by reflexivity.
  assert (Ht : name_shape "twiss" = true) by (vm_compute; reflexivity).
  name_token tok_name "twiss" "("%char Ht. rewrite tok_lpar.
  rewrite (tok_space newline) by reflexivity.
  rewrite (tok_lines_chars (str_repeat " " 8) _ _ eq_refl Hne Hkeys).
  reflexivity.
Qed.

(** ** The parser *)

Lemma parse_value_app (vt : list token) (v : argument_value) (r : list token) :
  parse_value vt = Some (v, []) -> parse_value (vt ++ r) = Some (v, r).
Proof.
  destruct vt as [|t vt]; [done|]. destruct t; try done; cbn [parse_value app].
  - intros H. destruct vt as [|t' vt']; [by cbn [app]; injection H as <-|].
    by injection H.
  - destruct (number_value s) as [x|]; [|done]. cbn. intros H. by injection H as <- ->.
  - destruct vt as [|t' vt']; [done|]. destruct t'; try done. cbn [app].
    destruct (number_value s) as [x|]; [|done]. cbn. intros H. by injection H as <- ->.
  - destruct vt as [|t' vt']; [done|]. destruct t'; try done. cbn [app].
    destruct (number_value s) as [x|]; [|done]. cbn. intros H. by injection H as <- ->.
Qed.

Lemma parse_args_items (items : list (pyval * spec_float)) :
  Forall (fun item => value_reads_back (snd item)) items ->
  forall (fuel : nat) (rest : list token),
    (length items < fuel)%nat ->
    parse_args fuel (concat (map item_tokens items) ++ TRPar :: rest)
    = Some (map keyword_item items, rest).
Proof.
  induction 1 as [|item items Hv Hvs IH]; intros fuel rest Hfuel.
  - destruct fuel as [|fuel]; [cbn [length] in Hfuel; lia|]. reflexivity.
  - destruct fuel as [|fuel]; [lia|]. cbn [length] in Hfuel.
    cbn [map concat]. unfold item_tokens at 1. cbn [app]. rewrite <- !app_assoc. cbn [app].
    cbn [parse_args].
    rewrite (parse_value_app _ _ _ Hv). cbn [mbind option_bind].
    rewrite (IH fuel rest ltac:(lia)). reflexivity.
Qed.

Lemma item_tokens_length (items : list (pyval * spec_float)) :
  (length items <= length (concat (map item_tokens items)))%nat.
Proof.
  induction items as [|item items IH]; [done|].
  cbn [map concat length]. unfold item_tokens at 1. cbn [app length].
  rewrite length_app. lia.
Qed.

(** An unpacked call contributes its own keyword arguments. *)
Lemma parse_args_unpacked (fuel : nat) (n : string) (r0 rest : list token)
    (items : list (string * argument_value)) :
  parse_args fuel r0 = Some (items, TRPar :: rest) ->
  parse_args (S fuel) (TStars :: TName n :: TLPar :: r0) = Some (items, rest).
Proof.
  intros H.
  change (parse_args (S fuel) (TStars :: TName n :: TLPar :: r0))
    with ('(items, r) ← parse_args fuel r0;
          match r with
          | TComma :: r' => '(more, r'') ← parse_args fuel r'; Some (items ++ more, r'')
          | TRPar :: r' => Some (items, r')
          | _ => None
          end).
  rewrite H. reflexivity.
Qed.

Lemma parse_call_tokens (twiss : bool) (N : string) (items : list (pyval * spec_float))
    (text : string) :
  tokens_of text = call_tokens twiss N items ->
  Forall (fun item => value_reads_back (snd item)) items ->
  parse_call_statement text = Some (map keyword_item items).
Proof.
  intros Htext Hvs. unfold parse_call_statement. rewrite Htext.
  pose proof (item_tokens_length items) as Hlen.
  unfold call_tokens. destruct twiss; cbn [app].
  - cbn [length]. rewrite length_app. cbn [length].
    match goal with
    | |- context [parse_args (S ?f) _] =>
        rewrite (parse_args_unpacked f "twiss" _ [] (map keyword_item items))
    end; [reflexivity|].
    rewrite (parse_args_items items Hvs) by lia. reflexivity.
  - cbn [length]. rewrite length_app. cbn [length].
    rewrite (parse_args_items items Hvs) by lia. reflexivity.
Qed.

Lemma keyword_items_mapping (m : list (pyval * spec_float)) :
  Forall (fun item => exists s, fst item = PyStr s) m ->
  mapM (fun item : string * argument_value =>
          match snd item with
          | VNumber x => Some (PyStr (fst item), x)
          | VName _ => None
          end) (map keyword_item m)
  = Some m.
Proof.
  induction 1 as [|[k x] m [s Hk] _ IH]; [done|].
  cbn [fst] in Hk. subst k. cbn [map mapM keyword_item fst snd py_str].
  rewrite IH. reflexivity.
Qed.

Lemma well_formed_names (m : list (pyval * spec_float)) :
  Forall (fun item => exists s, fst item = PyStr s /\ identifier s = true) m ->
  Forall (fun item => name_shape (py_str (fst item)) = true) m /\
  Forall (fun item => exists s, fst item = PyStr s) m.
Proof.
  intros H. split; (eapply Forall_impl; [exact H|]); intros item (s & Hs & Hid).
  - rewrite Hs. by apply identifier_shape.
  - by exists s.
Qed.


(* ===================================================================== *)
(** * The rendered text on particular states *)
(* ===================================================================== *)

(** Without any valid record the argument list is a lone comma. *)
Lemma empty_mapping_text (state : State) :
  convert_distribution_parameters_to_valid_type state = Ok [] ->
  build_distribution_list state =
    Ok (if is_twiss state
        then "distr = distribution." +:+ py_str (selectedDistribution state) +:+ "(" +:+ nl
             +:+ "    **twiss(" +:+ nl +:+ "," +:+ nl +:+ "    )" +:+ nl +:+ ")"
        else "distr = distribution." +:+ py_str (selectedDistribution state) +:+ "(" +:+ nl
             +:+ "," +:+ nl +:+ ")").
Proof.
  intros H. unfold build_distribution_list. rewrite H.
  destruct (is_twiss state); reflexivity.
Qed.

(** The validated mapping of the Waterbag example reads back from the text. *)
Example waterbag_reads_back :
  exists text,
    build_distribution_list waterbag_state = Ok text /\
    Ok (reparse_keyword_mapping text)
    = (m ← convert_distribution_parameters_to_valid_type waterbag_state; Ok (Some m)).
Proof.
  eexists. split.
  - lookup.
  - lookup.
Qed.

(** Outside the well-formed mappings. For the state whose records all
    failed validation the mapping is empty and the rendered call has a lone
    comma as argument list; for a value beyond the float range the mapping
    holds an infinity, which is rendered as the name [inf]. Neither mapping
    is well formed, and neither text reads back as a keyword mapping. *)
Example mappings_that_are_not_well_formed :
  convert_distribution_parameters_to_valid_type all_invalid_state = Ok [] /\
  ~ well_formed_mapping [] /\
  build_distribution_list all_invalid_state
  = Ok ("distr = distribution.Waterbag(" +:+ nl +:+ "," +:+ nl +:+ ")") /\
  reparse_keyword_mapping ("distr = distribution.Waterbag(" +:+ nl +:+ "," +:+ nl +:+ ")")
  = None /\
  convert_distribution_parameters_to_valid_type overflow_state
  = Ok [(PyStr "lambdaX", S754_infinity false)] /\
  ~ well_formed_mapping [(PyStr "lambdaX", S754_infinity false)] /\
  build_distribution_list overflow_state
  = Ok ("distr = distribution.Waterbag(" +:+ nl +:+ "    lambdaX=inf," +:+ nl +:+ ")") /\
  reparse_keyword_mapping
    ("distr = distribution.Waterbag(" +:+ nl +:+ "    lambdaX=inf," +:+ nl +:+ ")")
  = None.
Proof.
  split; [lookup|]. split; [by intros [H _]|]. split; [lookup|]. split; [lookup|].
  split; [lookup|]. split.
  - intros (_ & _ & H). apply Forall_cons in H as [H _]. discriminate H.
  - split; lookup.
Qed.

(** C5. The empty lattice list is rendered as an empty list display, which
    is a statement; the empty validated mapping is rendered as a call
    whose argument list is a lone comma, flat or inside [twiss], which is
    not a statement. *)
Theorem empty_mapping_is_not_a_statement :
  build_lattice_list example_checker empty_state
  = Ok ("lattice_configuration = [" +:+ nl +:+ "    " +:+ nl +:+ "]") /\
  statement_ok ("lattice_configuration = [" +:+ nl +:+ "    " +:+ nl +:+ "]") = true /\
  build_distribution_list empty_state
  = Ok ("distr = distribution.Waterbag(" +:+ nl +:+ "," +:+ nl +:+ ")") /\
  statement_ok ("distr = distribution.Waterbag(" +:+ nl +:+ "," +:+ nl +:+ ")") = false /\
  build_distribution_list (example_state "Twiss" [] [])
  = Ok ("distr = distribution.Waterbag(" +:+ nl +:+ "    **twiss(" +:+ nl
        +:+ "," +:+ nl +:+ "    )" +:+ nl +:+ ")") /\
  statement_ok ("distr = distribution.Waterbag(" +:+ nl +:+ "    **twiss(" +:+ nl
                +:+ "," +:+ nl +:+ "    )" +:+ nl +:+ ")") = false /\
  (exists text, input_file example_checker waterbag_state = Ok text) /\
  (exists text, build_distribution_list waterbag_state = Ok text /\ statement_ok text = true).
Proof.
  do 6 (split; [lookup|]). split.
  - eexists. lookup.
  - eexists. split; [lookup|]. lookup.
Qed.

(** C6, the claim at a state: the second record has no error message and
    the default value [abc]; the exception is [ValueError], not a
    [ValidationError], and it leaves [input_file]. *)
Lemma unparseable_value_is_not_ValidationError :
  (exists param,
     param ∈ selectedDistributionParameters unparseable_state /\
     param_valid param /\
     param !! "parameter_default_value" = Some (PyStr "abc") /\
     float_of_str "abc" = None) /\
  convert_distribution_parameters_to_valid_type unparseable_state = Raise ValueError /\
  ~ raises_class "ValidationError"
      (convert_distribution_parameters_to_valid_type unparseable_state) /\
  input_file example_checker unparseable_state = Raise ValueError.
Proof.
  split; [|split; [|split]].
  - exists (parameter "muxpx" "abc" []).
    split; [|conjuncts; lookup].
    apply elem_of_cons. right. apply elem_of_cons. left. reflexivity.
  - lookup.
  - intros (e & He & Hname).
    assert (Hr : convert_distribution_parameters_to_valid_type unparseable_state
                 = Raise ValueError) by lookup.
    rewrite Hr in He. injection He as <-. vm_compute in Hname. discriminate Hname.
  - lookup.
Qed.

(* ===================================================================== *)
(** * The theorems at the example states *)
(* ===================================================================== *)

Lemma validated_mapping_entries_witness :
  Forall wf_param (selectedDistributionParameters waterbag_state) /\
  Forall (fun param => param_valid param -> param_parses param)
         (selectedDistributionParameters waterbag_state) /\
  exists m,
    convert_distribution_parameters_to_valid_type waterbag_state = Ok m /\
    (forall k, k ∈ map fst m <->
       exists param, param ∈ selectedDistributionParameters waterbag_state /\
                     param_valid param /\ param !! "parameter_name" = Some k).
Proof.
  assert (Hwf : Forall wf_param (selectedDistributionParameters waterbag_state))
    by well_formed.
  assert (Hp : Forall (fun param => param_valid param -> param_parses param)
                      (selectedDistributionParameters waterbag_state))
    by valid_parses.
  split; [exact Hwf|]. split; [exact Hp|].
  destruct (validated_mapping_entries waterbag_state Hwf Hp) as (m & Hm & Hkeys & _).
  exists m. split; assumption.
Defined.

Lemma key_order_and_last_wins_witness :
  Forall wf_param (selectedDistributionParameters duplicate_state) /\
  Forall (fun param => param_valid param -> param_parses param)
         (selectedDistributionParameters duplicate_state) /\
  exists m,
    convert_distribution_parameters_to_valid_type duplicate_state = Ok m /\
    map fst m = [PyStr "lambdaX"; PyStr "muxpx"] /\
    dict_get m (PyStr "lambdaX") = Some (S754_finite false 4503599627370496 (-51)).
Proof.
  assert (Hwf : Forall wf_param (selectedDistributionParameters duplicate_state))
    by well_formed.
  assert (Hp : Forall (fun param => param_valid param -> param_parses param)
                      (selectedDistributionParameters duplicate_state))
    by valid_parses.
  split; [exact Hwf|]. split; [exact Hp|].
  destruct (key_order_and_last_wins duplicate_state Hwf Hp) as (m & Hm & Hkeys & _ & Hlast).
  exists m. split; [exact Hm|]. split; [rewrite Hkeys; lookup|].
  destruct (Hlast [parameter "lambdaX" "1.0" []; parameter "muxpx" "0.5" []]
                  (parameter "lambdaX" "2.0" []) [] "lambdaX")
    as (v & x & Hv & Hx & Hget & _).
  - reflexivity.
  - lookup.
  - lookup.
  - intros other Hother. by apply elem_of_nil in Hother.
  - assert (Hv' : parameter "lambdaX" "2.0" [] !! "parameter_default_value"
                  = Some (PyStr "2.0")) by lookup.
    assert (Hx' : py_float (PyStr "2.0") = Ok (S754_finite false 4503599627370496 (-51)))
      by lookup.
    rewrite Hv' in Hv. injection Hv as <-. congruence.
Defined.

Lemma else_branch_unreachable_witness :
  comprehension (S754_infinity false) [] (selectedDistributionParameters waterbag_state)
  = convert_distribution_parameters_to_valid_type waterbag_state /\
  exists m,
    convert_distribution_parameters_to_valid_type waterbag_state = Ok m /\
    forall k x, (k, x) ∈ m ->
      exists param v,
        param ∈ selectedDistributionParameters waterbag_state /\ param_valid param /\
        param !! "parameter_default_value" = Some v /\ py_float v = Ok x.
Proof.
  destruct (else_branch_unreachable waterbag_state) as [Hany Hvalues].
  split; [apply Hany|].
  eexists. split; [lookup|]. apply Hvalues. lookup.
Defined.

Lemma twiss_indentation_witness :
  selectedDistributionType twiss_state = PyStr "Twiss" /\
  selectedDistributionType waterbag_state <> PyStr "Twiss" /\
  build_distribution_list twiss_state
  = Ok ("distr = distribution.Waterbag(" +:+ nl
        +:+ "    **twiss(" +:+ nl
        +:+ "        lambdaX=0.0011609826000864882," +:+ nl
        +:+ "        muxpx=0.0," +:+ nl
        +:+ "    )" +:+ nl
        +:+ ")") /\
  build_distribution_list waterbag_state
  = Ok ("distr = distribution.Waterbag(" +:+ nl
        +:+ "    lambdaX=0.0011609826000864882," +:+ nl
        +:+ "    muxpx=0.0," +:+ nl
        +:+ ")").
Proof.
  assert (Ht : selectedDistributionType twiss_state = PyStr "Twiss") by reflexivity.
  assert (Hn : selectedDistributionType waterbag_state <> PyStr "Twiss") by discriminate.
  split; [exact Ht|]. split; [exact Hn|]. split.
  - rewrite (proj1 (twiss_indentation twiss_state) Ht). lookup.
  - rewrite (proj2 (twiss_indentation waterbag_state) Hn). lookup.
Defined.

Lemma lattice_calls_in_order_witness :
  Forall (fun element => is_Some (element !! "name") /\
                         exists parameters, example_checker element = Ok parameters)
         (selectedLatticeList waterbag_state) /\
  exists calls,
    build_lattice_list example_checker waterbag_state
    = Ok ("lattice_configuration = [" +:+ nl +:+ "    "
          +:+ str_join ("," +:+ nl +:+ "    ") calls +:+ nl +:+ "]") /\
    length calls = 2%nat.
Proof.
  assert (H : Forall (fun element => is_Some (element !! "name") /\
                                     exists parameters, example_checker element = Ok parameters)
                     (selectedLatticeList waterbag_state)).
  { each_record; (split; [eexists; lookup | eexists; reflexivity]). }
  split; [exact H|].
  destruct (lattice_calls_in_order example_checker waterbag_state H) as (calls & Hb & Hall).
  exists calls. split; [exact Hb|].
  apply Forall2_length in Hall. rewrite <- Hall. reflexivity.
Defined.


Lemma lattice_element_needs_name_witness :
  (Forall (fun element => is_Some (element !! "name") /\
                          exists parameters, example_checker element = Ok parameters)
          (selectedLatticeList waterbag_state) /\
   (exists calls,
      build_lattice_list example_checker waterbag_state
      = Ok ("lattice_configuration = [" +:+ nl +:+ "    "
            +:+ str_join ("," +:+ nl +:+ "    ") calls +:+ nl +:+ "]") /\
      Forall2 (fun element call =>
                 exists name parameters,
                   element !! "name" = Some name /\
                   example_checker element = Ok parameters /\
                   call = "elements." +:+ py_str name +:+ "("
                          +:+ str_join ", " (map argument_text parameters) +:+ ")")
              (selectedLatticeList waterbag_state) calls) /\
   build_lattice_list example_checker waterbag_state
   = Ok ("lattice_configuration = [" +:+ nl
         +:+ "    elements.Quad(ds=1.0)," +:+ nl
         +:+ "    elements.Drift(ds=1.0)" +:+ nl
         +:+ "]")) /\
  selectedLatticeList nameless_state
  = [lattice_element "Quad"] ++ list_to_map [("ds", PyStr "1.0")] :: [lattice_element "Drift"] /\
  (list_to_map [("ds", PyStr "1.0")] : gmap string pyval) !! "name" = None /\
  mapM (element_call example_checker) [lattice_element "Quad"] = Ok ["elements.Quad(ds=1.0)"] /\
  build_lattice_list example_checker nameless_state = Raise KeyError.
Proof.
  assert (Hnamed : Forall (fun element =>
                             is_Some (element !! "name") /\
                             exists parameters, example_checker element = Ok parameters)
                          (selectedLatticeList waterbag_state)).
  { each_record; (split; [eexists; lookup | eexists; reflexivity]). }
  assert (Hsplit : selectedLatticeList nameless_state
                   = [lattice_element "Quad"] ++ list_to_map [("ds", PyStr "1.0")]
                       :: [lattice_element "Drift"]) by reflexivity.
  assert (Hname : (list_to_map [("ds", PyStr "1.0")] : gmap string pyval) !! "name" = None)
    by lookup.
  assert (Hbefore : mapM (element_call example_checker) [lattice_element "Quad"]
                    = Ok ["elements.Quad(ds=1.0)"]) by lookup.
  split.
  - split; [exact Hnamed|]. split; [|lookup].
    exact (proj1 (lattice_element_needs_name example_checker waterbag_state) Hnamed).
  - split; [exact Hsplit|]. split; [exact Hname|]. split; [exact Hbefore|].
    exact (proj2 (proj2 (proj2 (lattice_element_needs_name example_checker nameless_state))
                    _ _ _ Hsplit Hname) _ Hbefore).
Defined.

Lemma lifecycle_order_witness :
  exists script,
    input_file example_checker waterbag_state = Ok script /\
    in_order
      [ "sim.particle_shape = 2";
        "sim.space_charge = False";
        "sim.csr = False";
        "sim.slice_step_diagnostics = True";
        "sim.init_grids()";
        "ref = sim.particle_container().ref_particle()";
        "ref.set_charge_qe(1).set_mass_MeV(938.27208816).set_kin_energy_MeV(kin_energy_MeV)";
        "distr = distribution.Waterbag(" +:+ nl
          +:+ "    lambdaX=0.0011609826000864882," +:+ nl
          +:+ "    muxpx=0.0," +:+ nl
          +:+ ")";
        "sim.add_particles(bunch_charge_C, distr, npart)";
        "lattice_configuration = [" +:+ nl
          +:+ "    elements.Quad(ds=1.0)," +:+ nl
          +:+ "    elements.Drift(ds=1.0)" +:+ nl
          +:+ "]";
        "sim.lattice.extend(lattice_configuration)";
        "sim.track_particles()";
        "sim.finalize()" ]
      script.
Proof.
  destruct (lifecycle_order example_checker waterbag_state) as [Hsome Horder].
  destruct (Hsome _ _ ltac:(lookup) ltac:(lookup)) as [script Hscript].
  exists script. split; [exact Hscript|].
  destruct (Horder script Hscript) as (d & l & Hd & Hl & _ & _ & H).
  assert (Hd' : build_distribution_list waterbag_state
                = Ok ("distr = distribution.Waterbag(" +:+ nl
                      +:+ "    lambdaX=0.0011609826000864882," +:+ nl
                      +:+ "    muxpx=0.0," +:+ nl
                      +:+ ")")) by lookup.
  assert (Hl' : build_lattice_list example_checker waterbag_state
                = Ok ("lattice_configuration = [" +:+ nl
                      +:+ "    elements.Quad(ds=1.0)," +:+ nl
                      +:+ "    elements.Drift(ds=1.0)" +:+ nl
                      +:+ "]")) by lookup.
  rewrite Hd' in Hd. rewrite Hl' in Hl. injection Hd as <-. injection Hl as <-.
  exact H.
Defined.

Lemma unparseable_value_raises_ValueError_witness :
  Forall wf_param (selectedDistributionParameters unparseable_state) /\
  Forall (fun param => param_valid param ->
                       exists s, param !! "parameter_default_value" = Some (PyStr s))
         (selectedDistributionParameters unparseable_state) /\
  (exists param s,
     param ∈ selectedDistributionParameters unparseable_state /\ param_valid param /\
     param !! "parameter_default_value" = Some (PyStr s) /\ float_of_str s = None) /\
  convert_distribution_parameters_to_valid_type unparseable_state = Raise ValueError /\
  build_distribution_list unparseable_state = Raise ValueError /\
  (forall checker, input_file checker unparseable_state = Raise ValueError).
Proof.
  assert (Hwf : Forall wf_param (selectedDistributionParameters unparseable_state))
    by well_formed.
  assert (Hs : Forall (fun param => param_valid param ->
                         exists s, param !! "parameter_default_value" = Some (PyStr s))
                      (selectedDistributionParameters unparseable_state))
    by valid_strings.
  assert (Hbad : exists param s,
            param ∈ selectedDistributionParameters unparseable_state /\ param_valid param /\
            param !! "parameter_default_value" = Some (PyStr s) /\ float_of_str s = None).
  { exists (parameter "muxpx" "abc" []), "abc".
    split; [apply elem_of_cons; right; apply elem_of_cons; left; reflexivity|].
    conjuncts; lookup. }
  split; [exact Hwf|]. split; [exact Hs|]. split; [exact Hbad|].
  exact (unparseable_value_raises_ValueError unparseable_state Hwf Hs Hbad).
Defined.

(* ===================================================================== *)
(** * When the validation returns and what it raises *)
(* ===================================================================== *)

Lemma comprehension_app (d : spec_float) (l1 l2 : list (gmap string pyval)) :
  forall acc,
    comprehension d acc (l1 ++ l2)
    = (acc' ← comprehension d acc l1; comprehension d acc' l2).
Proof.
  induction l1 as [|param rest IH]; intros acc; [reflexivity|].
  cbn [app comprehension]. destruct (comprehension_step d acc param); [apply IH | reflexivity].
Qed.

(** The accumulator does not decide whether the comprehension returns. *)
Lemma comprehension_step_returns (d : spec_float) (acc : list (pyval * spec_float))
    (param : gmap string pyval) :
  (exists acc', comprehension_step d acc param = Ok acc') <-> record_ok param.
Proof.
  split.
  - intros [acc' H].
    apply comprehension_step_inv in H
      as [(Hinv & Hmsg & _)|(Hvalid & name & v & x & Hn & Hv & Hx & Hh & _)].
    + split; [exact Hmsg | tauto].
    + split; [unfold has_error_list; rewrite Hvalid; eauto | eauto 10].
  - intros [[msg Hmsg] Hrec].
    rewrite comprehension_step_valid_only, filter_expr_spec, Hmsg, bind_Ok.
    destruct (py_eqb msg (PyList [])) eqn:Eb; [|eauto].
    apply py_eqb_empty_list in Eb as ->.
    destruct (Hrec Hmsg) as (name & v & x & Hn & Hh & Hv & Hx).
    unfold value_expr, getitem, dict_setitem.
    rewrite Hn, bind_Ok, Hv, bind_Ok, Hx, bind_Ok, Hh. eauto.
Qed.

Lemma comprehension_returns (d : spec_float) (params : list (gmap string pyval)) :
  forall acc, (exists m, comprehension d acc params = Ok m) <-> Forall record_ok params.
Proof.
  induction params as [|param rest IH]; intros acc; cbn [comprehension].
  - split; [constructor | eauto].
  - rewrite Forall_cons, <- (comprehension_step_returns d acc param). split.
    + intros [m H]. apply bind_inv_Ok in H as (acc' & Hstep & H).
      split; [eauto | apply (IH acc'); eauto].
    + intros [[acc' Hstep] Hrest]. rewrite Hstep, bind_Ok. by apply IH.
Qed.

(** X1. The validation returns a mapping exactly when every record has its
    list of error messages and every record with an empty list has a name
    that can be a key and a default value that [float] reads. *)
Theorem validation_returns_iff (state : State) :
  (exists m, convert_distribution_parameters_to_valid_type state = Ok m) <->
  Forall record_ok (selectedDistributionParameters state).
Proof. apply comprehension_returns. Qed.

(** The record after a prefix that the comprehension accepts decides. *)
Lemma comprehension_first_failure (d : spec_float) (before after : list (gmap string pyval))
    (param : gmap string pyval) (m : list (pyval * spec_float)) (e : pyexn) :
  comprehension d [] before = Ok m ->
  comprehension_step d m param = Raise e ->
  comprehension d [] (before ++ param :: after) = Raise e.
Proof.
  intros Hb Hstep. rewrite comprehension_app, Hb, bind_Ok.
  cbn [comprehension]. rewrite Hstep. reflexivity.
Qed.

(** X2. A record that lacks its list of error messages, or that passed
    validation and lacks its name or its default value, makes the
    validation raise [KeyError] when the records before it are accepted. *)
Theorem missing_field_raises_KeyError (state : State)
    (before after : list (gmap string pyval)) (param : gmap string pyval) :
  selectedDistributionParameters state = before ++ param :: after ->
  (exists m, convert_distribution_parameters_to_valid_type (with_parameters state before)
             = Ok m) ->
  param !! "parameter_error_message" = None \/
  (param_valid param /\
   (param !! "parameter_name" = None \/ param !! "parameter_default_value" = None)) ->
  convert_distribution_parameters_to_valid_type state = Raise KeyError.
Proof.
  intros Hsplit [m Hm] Hcase.
  unfold convert_distribution_parameters_to_valid_type in *. simpl in Hm.
  rewrite Hsplit. apply (comprehension_first_failure _ _ _ _ _ _ Hm).
  unfold comprehension_step, filter_expr, value_expr, getitem.
  destruct Hcase as [Hmsg|[Hvalid Hcase]].
  - rewrite Hmsg. reflexivity.
  - unfold param_valid in Hvalid. rewrite Hvalid, !bind_Ok.
    change (py_eqb (PyList []) (PyList [])) with true. cbv iota.
    destruct Hcase as [Hn|Hv].
    + rewrite Hn. reflexivity.
    + rewrite Hv. destruct (param !! "parameter_name"); reflexivity.
Qed.

(** X3. The exception that [float] raises on the default value of a valid
    record ([TypeError] for [None] and lists, [OverflowError] for an
    integer beyond the float range, [ValueError] for a text that is no
    number) leaves the validation, [build_distribution_list] and
    [input_file] unchanged, when the records before it are accepted. *)
Theorem float_exception_is_passed_on (state : State)
    (before after : list (gmap string pyval)) (param : gmap string pyval)
    (name v : pyval) (e : pyexn) :
  selectedDistributionParameters state = before ++ param :: after ->
  (exists m, convert_distribution_parameters_to_valid_type (with_parameters state before)
             = Ok m) ->
  param_valid param ->
  param !! "parameter_name" = Some name ->
  param !! "parameter_default_value" = Some v ->
  py_float v = Raise e ->
  convert_distribution_parameters_to_valid_type state = Raise e /\
  build_distribution_list state = Raise e /\
  (forall checker, input_file checker state = Raise e).
Proof.
  intros Hsplit [m Hm] Hvalid Hn Hv He.
  assert (H : convert_distribution_parameters_to_valid_type state = Raise e).
  { unfold convert_distribution_parameters_to_valid_type in *. simpl in Hm.
    rewrite Hsplit. apply (comprehension_first_failure _ _ _ _ _ _ Hm).
    unfold comprehension_step, filter_expr, value_expr, getitem.
    unfold param_valid in Hvalid. rewrite Hvalid, !bind_Ok.
    change (py_eqb (PyList []) (PyList [])) with true. cbv iota.
    rewrite Hn, bind_Ok, Hv, bind_Ok, He. reflexivity. }
  assert (H' : build_distribution_list state = Raise e).
  { unfold build_distribution_list. rewrite H. reflexivity. }
  split; [exact H|]. split; [exact H'|].
  intros checker. by apply input_file_Raise.
Qed.

(** X4. A valid record whose name is a list, with a default value that
    [float] reads, makes the validation raise [TypeError]: a list cannot be
    the key of the mapping. *)
Theorem list_name_raises_TypeError (state : State)
    (before after : list (gmap string pyval)) (param : gmap string pyval)
    (items : list pyval) (v : pyval) (x : spec_float) :
  selectedDistributionParameters state = before ++ param :: after ->
  (exists m, convert_distribution_parameters_to_valid_type (with_parameters state before)
             = Ok m) ->
  param_valid param ->
  param !! "parameter_name" = Some (PyList items) ->
  param !! "parameter_default_value" = Some v ->
  py_float v = Ok x ->
  convert_distribution_parameters_to_valid_type state = Raise TypeError.
Proof.
  intros Hsplit [m Hm] Hvalid Hn Hv Hx.
  unfold convert_distribution_parameters_to_valid_type in *. simpl in Hm.
  rewrite Hsplit. apply (comprehension_first_failure _ _ _ _ _ _ Hm).
  unfold comprehension_step, filter_expr, value_expr, getitem.
  unfold param_valid in Hvalid. rewrite Hvalid, !bind_Ok.
  change (py_eqb (PyList []) (PyList [])) with true. cbv iota.
  rewrite Hn, bind_Ok, Hv, bind_Ok, Hx, bind_Ok. reflexivity.
Qed.

(* ===================================================================== *)
(** * Records that failed validation *)
(* ===================================================================== *)

Lemma comprehension_filter (d : spec_float) (params : list (gmap string pyval)) :
  Forall has_error_list params ->
  forall acc,
    comprehension d acc (List.filter param_validb params) = comprehension d acc params.
Proof.
  induction params as [|param rest IH]; intros Hall acc; [reflexivity|].
  apply Forall_cons in Hall as [[msg Hmsg] Hall]. cbn [List.filter].
  destruct (param_validb param) eqn:Ev; cbn [comprehension].
  - destruct (comprehension_step d acc param); [by apply IH | reflexivity].
  - rewrite (IH Hall). rewrite comprehension_step_valid_only, filter_expr_spec, Hmsg, bind_Ok.
    unfold param_validb in Ev. rewrite Hmsg in Ev. rewrite Ev. reflexivity.
Qed.

(** X5. When every record has its list of error messages, the records
    with a non-empty list are not read any further: without them the
    validation, the distribution block and the whole script are the same,
    mapping, text or exception; such a record may lack its name and its
    value. *)
Theorem invalid_records_are_ignored (state : State) :
  Forall has_error_list (selectedDistributionParameters state) ->
  let valid_only :=
    with_parameters state
      (List.filter param_validb (selectedDistributionParameters state)) in
  convert_distribution_parameters_to_valid_type valid_only
  = convert_distribution_parameters_to_valid_type state /\
  build_distribution_list valid_only = build_distribution_list state /\
  (forall checker, input_file checker valid_only = input_file checker state).
Proof.
  intros Hall valid_only.
  assert (H : convert_distribution_parameters_to_valid_type valid_only
              = convert_distribution_parameters_to_valid_type state).
  { unfold convert_distribution_parameters_to_valid_type, valid_only. simpl.
    by apply comprehension_filter. }
  assert (H' : build_distribution_list valid_only = build_distribution_list state).
  { unfold build_distribution_list. rewrite H. reflexivity. }
  split; [exact H|]. split; [exact H'|].
  intros checker. unfold input_file. rewrite H'. reflexivity.
Qed.

(* ===================================================================== *)
(** * One more record *)
(* ===================================================================== *)

Lemma dict_store_fresh {V : Type} (d : list (pyval * V)) (k : pyval) (x : V) :
  key_in k (map fst d) = false -> dict_store d k x = d ++ [(k, x)].
Proof.
  induction d as [|[k' x'] d IH]; cbn [map fst key_in existsb dict_store app]; [reflexivity|].
  intros H. apply orb_false_iff in H as [-> H]. by rewrite (IH H).
Qed.

Lemma dict_store_present {V : Type} (d : list (pyval * V)) (k : pyval) (x : V) :
  key_in k (map fst d) = true -> map fst (dict_store d k x) = map fst d.
Proof. intros H. rewrite dict_store_keys. unfold add_key. by rewrite H. Qed.

Lemma key_in_str_false (s : string) (keys : list pyval) :
  key_in (PyStr s) keys = false <-> PyStr s ∉ keys.
Proof.
  rewrite <- key_in_str. destruct (key_in (PyStr s) keys); split; congruence.
Qed.

(** X6. A record added at the end of the list: when it failed validation
    the mapping stays as it is; when it passed, with a string as name and a
    value that [float] reads, its name maps to that float and every other
    name to what it mapped to before: a new name becomes the last entry, a
    name already present keeps its place. *)
Theorem record_added_at_the_end (state : State) (m : list (pyval * spec_float))
    (param : gmap string pyval) :
  convert_distribution_parameters_to_valid_type state = Ok m ->
  let extended :=
    with_parameters state (selectedDistributionParameters state ++ [param]) in
  (has_error_list param -> ~ param_valid param ->
   convert_distribution_parameters_to_valid_type extended = Ok m) /\
  (forall s v x,
     param_valid param ->
     param !! "parameter_name" = Some (PyStr s) ->
     param !! "parameter_default_value" = Some v ->
     py_float v = Ok x ->
     exists m',
       convert_distribution_parameters_to_valid_type extended = Ok m' /\
       dict_get m' (PyStr s) = Some x /\
       (forall k, k <> PyStr s -> dict_get m' k = dict_get m k) /\
       (PyStr s ∉ map fst m -> m' = m ++ [(PyStr s, x)]) /\
       (PyStr s ∈ map fst m -> map fst m' = map fst m)).
Proof.
  intros Hm extended.
  unfold convert_distribution_parameters_to_valid_type in *. simpl.
  rewrite comprehension_app, Hm, bind_Ok. cbn [comprehension].
  rewrite comprehension_step_valid_only, filter_expr_spec. split.
  - intros [msg Hmsg] Hinvalid. rewrite Hmsg, bind_Ok.
    destruct (py_eqb msg (PyList [])) eqn:Eb; [|reflexivity].
    apply py_eqb_empty_list in Eb as ->. by destruct Hinvalid.
  - intros s v x Hvalid Hn Hv Hx. unfold param_valid in Hvalid.
    rewrite Hvalid, bind_Ok.
    change (py_eqb (PyList []) (PyList [])) with true. cbv iota.
    unfold value_expr, getitem, dict_setitem.
    rewrite Hn, bind_Ok, Hv, bind_Ok, Hx, bind_Ok. cbn [py_hashable].
    exists (dict_store m (PyStr s) x). split; [reflexivity|].
    split; [apply dict_get_store_same|].
    split; [intros k Hk; by apply dict_get_store_other|].
    split.
    + intros Hfresh. by apply dict_store_fresh, key_in_str_false.
    + intros Hold. by apply dict_store_present, key_in_str.
Qed.

(* ===================================================================== *)
(** * The size of the mapping *)
(* ===================================================================== *)

Lemma dict_store_length {V : Type} (d : list (pyval * V)) (k : pyval) (x : V) :
  (length (dict_store d k x) <= S (length d))%nat.
Proof.
  induction d as [|[k' x'] d IH]; cbn [dict_store length]; [lia|].
  destruct (py_eqb k' k); cbn [length]; lia.
Qed.

Lemma comprehension_length (d : spec_float) (params : list (gmap string pyval)) :
  forall acc m, comprehension d acc params = Ok m ->
  (length m <= length acc + length (List.filter param_validb params))%nat.
Proof.
  induction params as [|param rest IH]; intros acc m; cbn [comprehension List.filter].
  - intros [= <-]. simpl. lia.
  - intros H. apply bind_inv_Ok in H as (acc' & Hstep & H). apply IH in H.
    apply comprehension_step_inv in Hstep
      as [(Hinv & _ & ->)|(Hvalid & name & v & x & _ & _ & _ & _ & ->)].
    + destruct (param_validb param); cbn [length]; lia.
    + apply param_validb_true in Hvalid. rewrite Hvalid. cbn [length].
      pose proof (dict_store_length acc name x). lia.
Qed.

Lemma keep_first_NoDup_id (l : list pyval) :
  Forall is_str l -> NoDup l -> keep_first l = l.
Proof.
  induction 1 as [|k l [s ->] Hstr IH]; intros Hnd; [reflexivity|].
  apply NoDup_cons in Hnd as [Hk Hnd]. cbn [keep_first]. rewrite (IH Hnd). f_equal.
  clear IH Hnd. induction l as [|k' l IH]; [reflexivity|].
  apply not_elem_of_cons in Hk as [Hne Hk]. apply Forall_cons in Hstr as [_ Hstr].
  rewrite filter_cons_True; [by rewrite (IH Hstr Hk)|].
  destruct (py_eqb (PyStr s) k') eqn:E; [|reflexivity].
  apply py_eqb_str_l in E. congruence.
Qed.

Lemma valid_names_length (params : list (gmap string pyval)) :
  Forall wf_param params ->
  length (valid_names params) = length (List.filter param_validb params).
Proof.
  unfold valid_names. induction 1 as [|param rest ([s Hs] & _) _ IH]; [reflexivity|].
  cbn [omap list_omap List.filter]. destruct (param_validb param); [|exact IH].
  rewrite Hs. cbn [length]. by rewrite IH.
Qed.

Lemma valid_names_str (params : list (gmap string pyval)) :
  Forall wf_param params -> Forall is_str (valid_names params).
Proof.
  unfold valid_names. induction 1 as [|param rest ([s Hs] & _) _ IH]; [constructor|].
  cbn [omap list_omap]. destruct (param_validb param); [|exact IH].
  rewrite Hs. constructor; [by exists s | exact IH].
Qed.

(** X7. A returned mapping has at most as many entries as there are records
    with an empty error list; for well-formed records whose valid names
    are pairwise different it has exactly that many. *)
Theorem mapping_size (state : State) (m : list (pyval * spec_float)) :
  convert_distribution_parameters_to_valid_type state = Ok m ->
  (length m <= length (List.filter param_validb (selectedDistributionParameters state)))%nat /\
  (Forall wf_param (selectedDistributionParameters state) ->
   NoDup (valid_names (selectedDistributionParameters state)) ->
   length m = length (List.filter param_validb (selectedDistributionParameters state))).
Proof.
  intros Hm. split.
  - apply (comprehension_length _ _ _ _ Hm).
  - intros Hwf Hnd. unfold convert_distribution_parameters_to_valid_type in Hm.
    assert (Hparses : Forall (fun param => param_valid param -> param_parses param)
                             (selectedDistributionParameters state)).
    { assert (Hok : Forall record_ok (selectedDistributionParameters state))
        by (apply (comprehension_returns float_zero _ []); eauto).
      eapply Forall_impl; [exact Hok|]. intros param [_ Hrec] Hvalid.
      destruct (Hrec Hvalid) as (name & v & x & _ & _ & Hv & Hx). by exists v, x. }
    rewrite (comprehension_ok _ _ Hwf Hparses) in Hm. injection Hm as <-.
    rewrite <- (length_map fst),
      (store_all_keys_keep_first _ (param_items_str _ Hwf)),
      (param_items_names _ Hparses (wf_param_name _ Hwf)),
      (keep_first_NoDup_id _ (valid_names_str _ Hwf) Hnd).
    by apply valid_names_length.
Qed.

(* ===================================================================== *)
(** * When the export returns and what it raises *)
(* ===================================================================== *)

Lemma mapM_returns {A B : Type} (f : A -> result B) (l : list A) :
  (exists ys, mapM f l = Ok ys) <-> Forall (fun x => exists y, f x = Ok y) l.
Proof.
  induction l as [|x l IH]; cbn [mapM].
  - split; [constructor | eauto].
  - rewrite Forall_cons, <- IH. split.
    + intros [ys H]. apply bind_inv_Ok in H as (y & Hy & H).
      apply bind_inv_Ok in H as (k & Hk & _). eauto.
    + intros [[y Hy] [k Hk]]. rewrite Hy, bind_Ok, Hk, bind_Ok. eauto.
Qed.

Lemma mapM_app_Ok {A B : Type} (f : A -> result B) (a b : list A) (ca cb : list B) :
  mapM f a = Ok ca -> mapM f b = Ok cb -> mapM f (a ++ b) = Ok (ca ++ cb).
Proof.
  rewrite !mapM_Ok. apply Forall2_app.
Qed.

Lemma build_distribution_list_returns (state : State) :
  (exists text, build_distribution_list state = Ok text) <->
  (exists m, convert_distribution_parameters_to_valid_type state = Ok m).
Proof.
  unfold build_distribution_list.
  destruct (convert_distribution_parameters_to_valid_type state) as [m|e]; simpl.
  - split; [eauto|]. intros _. destruct (is_twiss state); eauto.
  - split; intros [? H]; discriminate H.
Qed.

Lemma build_distribution_list_raises (state : State) (e : pyexn) :
  build_distribution_list state = Raise e <->
  convert_distribution_parameters_to_valid_type state = Raise e.
Proof.
  unfold build_distribution_list.
  destruct (convert_distribution_parameters_to_valid_type state) as [m|e']; simpl.
  - destruct (is_twiss state); split; discriminate.
  - split; intros [= ->]; reflexivity.
Qed.

Section ExportTheorems.

Variable checker : gmap string pyval -> result (list (pyval * pyval)).

Lemma element_call_returns (element : gmap string pyval) :
  (exists call, element_call checker element = Ok call) <-> element_ok checker element.
Proof.
  unfold element_ok. split.
  - intros [call H]. apply element_call_Ok in H as (name & ps & Hn & Hps & _). eauto.
  - intros [[name Hn] [ps Hps]]. eexists. apply element_call_Ok. eauto.
Qed.

Lemma build_lattice_list_returns (state : State) :
  (exists text, build_lattice_list checker state = Ok text) <->
  Forall (element_ok checker) (selectedLatticeList state).
Proof.
  rewrite (Forall_iff _ _ _ (fun element => iff_sym (element_call_returns element))).
  rewrite <- mapM_returns. split.
  - intros [text H]. apply build_lattice_list_Ok in H as (calls & H & _). eauto.
  - intros [calls H]. eexists. apply build_lattice_list_Ok. eauto.
Qed.

(** X8. [input_file] returns a script exactly when every parameter record
    is accepted by the validation, every lattice element has a name and the
    parameter checker accepts every element. *)
Theorem export_returns_iff (state : State) :
  (exists script, input_file checker state = Ok script) <->
  Forall record_ok (selectedDistributionParameters state) /\
  Forall (element_ok checker) (selectedLatticeList state).
Proof.
  rewrite <- (comprehension_returns float_zero _ []), <- build_lattice_list_returns.
  change (exists m, comprehension float_zero [] (selectedDistributionParameters state) = Ok m)
    with (exists m, convert_distribution_parameters_to_valid_type state = Ok m).
  rewrite <- build_distribution_list_returns.
  split.
  - intros [script H]. apply input_file_Ok in H as (d & l & Hd & Hl & _). eauto.
  - intros [[d Hd] [l Hl]]. eexists. apply input_file_Ok. eauto.
Qed.

Lemma input_file_raises (state : State) (e : pyexn) :
  input_file checker state = Raise e <->
  convert_distribution_parameters_to_valid_type state = Raise e \/
  ((exists m, convert_distribution_parameters_to_valid_type state = Ok m) /\
   build_lattice_list checker state = Raise e).
Proof.
  rewrite <- build_distribution_list_raises, <- build_distribution_list_returns.
  unfold input_file.
  destruct (build_distribution_list state) as [d|e1]; simpl.
  - destruct (build_lattice_list checker state) as [l|e2]; simpl; split.
    + discriminate.
    + intros [H|[_ H]]; discriminate H.
    + intros [= ->]. right. eauto.
    + intros [H|[_ H]]; [discriminate H | exact H].
  - split.
    + intros [= ->]. by left.
    + intros [H|[[d H] _]]; [exact H | discriminate H].
Qed.

(** X9. [input_file] raises what the validation raises; when the
    validation returns, it raises what [build_lattice_list] raises. An
    exception of the parameters thus hides one of the lattice. *)
Theorem export_raises_iff (state : State) (e : pyexn) :
  input_file checker state = Raise e <->
  convert_distribution_parameters_to_valid_type state = Raise e \/
  ((exists m, convert_distribution_parameters_to_valid_type state = Ok m) /\
   build_lattice_list checker state = Raise e).
Proof. apply input_file_raises. Qed.

(** X10. The exception that the parameter checker raises on a named
    element leaves [build_lattice_list] unchanged when the elements before
    it are rendered, and leaves [input_file] when the validation returns. *)
Theorem checker_exception_is_passed_on (state : State)
    (before after : list (gmap string pyval)) (element : gmap string pyval)
    (calls : list string) (e : pyexn) :
  selectedLatticeList state = before ++ element :: after ->
  mapM (element_call checker) before = Ok calls ->
  is_Some (element !! "name") ->
  checker element = Raise e ->
  build_lattice_list checker state = Raise e /\
  ((exists m, convert_distribution_parameters_to_valid_type state = Ok m) ->
   input_file checker state = Raise e).
Proof.
  intros Hsplit Hbefore [name Hname] He.
  assert (Hcall : element_call checker element = Raise e).
  { unfold element_call, getitem. rewrite Hname, bind_Ok, He. reflexivity. }
  assert (H : build_lattice_list checker state = Raise e).
  { unfold build_lattice_list.
    rewrite Hsplit, (mapM_Raise_first _ _ _ _ _ _ Hbefore Hcall). reflexivity. }
  split; [exact H|]. intros Hm. apply input_file_raises. right. by split.
Qed.

End ExportTheorems.

(* ===================================================================== *)
(** * Lattice lists put together *)
(* ===================================================================== *)

Lemma str_join_app (sep : string) (a b : list string) :
  a <> [] -> b <> [] ->
  str_join sep (a ++ b) = str_join sep a +:+ sep +:+ str_join sep b.
Proof.
  intros Ha Hb. induction a as [|x a IH]; [done|].
  destruct a as [|y a].
  - destruct b as [|z b]; [done | reflexivity].
  - change (str_join sep ((x :: y :: a) ++ b))
      with (x +:+ sep +:+ str_join sep ((y :: a) ++ b)).
    rewrite IH by done.
    change (str_join sep (x :: y :: a)) with (x +:+ sep +:+ str_join sep (y :: a)).
    by rewrite !append_assoc.
Qed.

Lemma append_length (a b : string) :
  String.length (a +:+ b) = (String.length a + String.length b)%nat.
Proof.
  induction a as [|c a IH]; [reflexivity|].
  change (S (String.length (a +:+ b)) = S (String.length a + String.length b)).
  by rewrite IH.
Qed.

Lemma append_inj_l (a x y : string) : a +:+ x = a +:+ y -> x = y.
Proof.
  induction a as [|c a IH]; [done|].
  change (String c (a +:+ x) = String c (a +:+ y) -> x = y).
  intros [= H]. by apply IH.
Qed.

Lemma append_inj_r (c x y : string) : x +:+ c = y +:+ c -> x = y.
Proof.
  revert y. induction x as [|a x IH]; intros [|b y] H.
  - reflexivity.
  - apply (f_equal String.length) in H. rewrite !append_length in H.
    cbn [String.length] in H. lia.
  - apply (f_equal String.length) in H. rewrite !append_length in H.
    cbn [String.length] in H. lia.
  - change (String a (x +:+ c) = String b (y +:+ c)) in H.
    injection H as -> H. f_equal. by apply IH.
Qed.

Section LatticeComposition.

Variable checker : gmap string pyval -> result (list (pyval * pyval)).

(** X11. The list rendered for two non-empty lattice lists put one after
    the other is made of the two rendered lists: the calls of the first,
    the separator (comma, newline, four spaces), the calls of the second,
    inside one pair of brackets. *)
Theorem lattice_lists_concatenate (state : State)
    (first second : list (gmap string pyval)) (calls1 calls2 : string) :
  first <> [] -> second <> [] ->
  build_lattice_list checker (with_lattice state first)
  = Ok ("lattice_configuration = [" +:+ nl +:+ "    " +:+ calls1 +:+ nl +:+ "]") ->
  build_lattice_list checker (with_lattice state second)
  = Ok ("lattice_configuration = [" +:+ nl +:+ "    " +:+ calls2 +:+ nl +:+ "]") ->
  build_lattice_list checker (with_lattice state (first ++ second))
  = Ok ("lattice_configuration = [" +:+ nl +:+ "    "
        +:+ calls1 +:+ "," +:+ nl +:+ "    " +:+ calls2 +:+ nl +:+ "]").
Proof.
  intros Hne1 Hne2 H1 H2.
  apply build_lattice_list_Ok in H1 as (c1 & Hc1 & E1).
  apply build_lattice_list_Ok in H2 as (c2 & Hc2 & E2).
  simpl in Hc1, Hc2.
  do 3 apply append_inj_l in E1. apply append_inj_r in E1.
  do 3 apply append_inj_l in E2. apply append_inj_r in E2.
  apply build_lattice_list_Ok. exists (c1 ++ c2).
  split; [by apply mapM_app_Ok|].
  assert (N1 : c1 <> []).
  { intros ->. apply mapM_Ok in Hc1. inversion Hc1. by subst. }
  assert (N2 : c2 <> []).
  { intros ->. apply mapM_Ok in Hc2. inversion Hc2. by subst. }
  rewrite (str_join_app _ _ _ N1 N2), E1, E2. by rewrite !append_assoc.
Qed.

End LatticeComposition.

(* ===================================================================== *)
(** * The frame of the script *)
(* ===================================================================== *)

Lemma ends_with_skip (a s t : string) :
  (exists front, s = front +:+ t) -> exists front, a +:+ s = front +:+ t.
Proof. intros [front ->]. exists (a +:+ front). by rewrite append_assoc. Qed.

Lemma script_ends_with_finalize (state : State) (distribution lattice : string) :
  exists front,
    str_join nl (script_lines state distribution lattice)
    = front +:+ "sim.finalize()" +:+ nl.
Proof.
  cbn [script_lines str_join].
  repeat first [ by exists "" | apply ends_with_skip ].
Qed.

Lemma in_order_assoc (pats : list string) (a b s : string) :
  in_order pats (a +:+ b +:+ s) -> in_order pats ((a +:+ b) +:+ s).
Proof. by rewrite append_assoc. Qed.

Lemma script_variables_in_order (state : State) (distribution lattice : string) :
  in_order
    [ "kin_energy_MeV = " +:+ py_str (kin_energy_MeV state);
      "bunch_charge_C = " +:+ py_str (bunch_charge_C state);
      "npart = " +:+ py_str (npart state);
      ").set_kin_energy_MeV(kin_energy_MeV)";
      "sim.add_particles(bunch_charge_C, distr, npart)" ]
    (str_join nl (script_lines state distribution lattice)).
Proof.
  cbn [script_lines str_join].
  repeat first
    [ apply in_order_here
    | exact I
    | match goal with |- in_order _ ((_ +:+ _) +:+ _) => apply in_order_assoc end
    | apply in_order_skip ].
Qed.

Section ScriptFrame.

Variable checker : gmap string pyval -> result (list (pyval * pyval)).

(** X12. Every script begins with an empty line and the import of
    [ImpactX], [distribution], [elements] and [twiss], ends with
    [sim.finalize()] and a newline, and assigns [kin_energy_MeV],
    [bunch_charge_C] and [npart] from the state, in this order, before the
    setter and the [add_particles] call that use them. *)
Theorem script_frame (state : State) (script : string) :
  input_file checker state = Ok script ->
  (exists rest,
     script = nl +:+ "from impactx import ImpactX, distribution, elements, twiss"
              +:+ nl +:+ rest) /\
  (exists front, script = front +:+ "sim.finalize()" +:+ nl) /\
  in_order
    [ "kin_energy_MeV = " +:+ py_str (kin_energy_MeV state);
      "bunch_charge_C = " +:+ py_str (bunch_charge_C state);
      "npart = " +:+ py_str (npart state);
      ").set_kin_energy_MeV(kin_energy_MeV)";
      "sim.add_particles(bunch_charge_C, distr, npart)" ]
    script.
Proof.
  intros H. apply input_file_Ok in H as (d & l & _ & _ & ->).
  split; [|split].
  - cbn [script_lines str_join]. eexists. reflexivity.
  - apply script_ends_with_finalize.
  - apply script_variables_in_order.
Qed.

End ScriptFrame.

(* ===================================================================== *)
(** * Pairwise different names *)
(* ===================================================================== *)

Lemma store_all_fresh {V : Type} (items : list (pyval * V)) :
  Forall is_str (map fst items) ->
  forall acc, NoDup (map fst acc ++ map fst items) -> store_all acc items = acc ++ items.
Proof.
  induction items as [|[k x] items IH]; intros Hstr acc Hnd.
  - by rewrite app_nil_r.
  - cbn [map fst] in Hstr, Hnd. apply Forall_cons in Hstr as [[s ->] Hstr].
    change (store_all acc ((PyStr s, x) :: items))
      with (store_all (dict_store acc (PyStr s) x) items).
    assert (Hfresh : PyStr s ∉ map fst acc).
    { apply NoDup_app in Hnd as (_ & Hdisj & _). intros Hin.
      apply (Hdisj _ Hin), elem_of_cons. by left. }
    rewrite dict_store_fresh by by apply key_in_str_false.
    rewrite (IH Hstr).
    + by rewrite <- app_assoc.
    + rewrite map_app. cbn [map fst]. by rewrite <- app_assoc.
Qed.

Lemma valid_records_items (params : list (gmap string pyval)) :
  Forall wf_param params ->
  Forall (fun param => param_valid param -> param_parses param) params ->
  Forall2 (fun param item => param_item param = Some item)
          (List.filter param_validb params) (omap param_item params).
Proof.
  intros Hwf Hparses.
  induction params as [|param rest IH]; [constructor|].
  apply Forall_cons in Hwf as [Hwf Hwfs]. apply Forall_cons in Hparses as [Hp Hps].
  cbn [List.filter omap list_omap]. destruct (param_validb param) eqn:Ev.
  - apply param_validb_true in Ev. destruct Hwf as ([s Hs] & _).
    destruct (Hp Ev) as (v & x & Hv & Hx).
    assert (Hitem : param_item param = Some (PyStr s, x))
      by (apply param_item_Some; eauto).
    rewrite Hitem. constructor; [exact Hitem | by apply IH].
  - rewrite param_item_invalid; [by apply IH|].
    rewrite <- param_validb_true. congruence.
Qed.

Lemma returned_parses (d : spec_float) (params : list (gmap string pyval))
    (m : list (pyval * spec_float)) :
  comprehension d [] params = Ok m ->
  Forall (fun param => param_valid param -> param_parses param) params.
Proof.
  intros Hm.
  assert (Hok : Forall record_ok params) by (apply (comprehension_returns d _ []); eauto).
  eapply Forall_impl; [exact Hok|]. intros param [_ Hrec] Hvalid.
  destruct (Hrec Hvalid) as (name & v & x & _ & _ & Hv & Hx). by exists v, x.
Qed.

Lemma distinct_names_mapping (params : list (gmap string pyval))
    (m : list (pyval * spec_float)) :
  comprehension float_zero [] params = Ok m ->
  Forall wf_param params -> NoDup (valid_names params) ->
  m = omap param_item params.
Proof.
  intros Hm Hwf Hnd. assert (Hparses := returned_parses _ _ _ Hm).
  rewrite (comprehension_ok _ _ Hwf Hparses) in Hm. injection Hm as <-.
  rewrite store_all_fresh; [reflexivity | by apply param_items_str |].
  cbn [map app]. by rewrite (param_items_names _ Hparses (wf_param_name _ Hwf)).
Qed.

(** X13. For well-formed records whose valid names are pairwise different,
    a returned mapping is, entry for entry and in input order, the list of
    the records with an empty error list: the key is the record's name, the
    value the float read from its default value. *)
Theorem distinct_names_give_one_entry_each (state : State)
    (m : list (pyval * spec_float)) :
  convert_distribution_parameters_to_valid_type state = Ok m ->
  Forall wf_param (selectedDistributionParameters state) ->
  NoDup (valid_names (selectedDistributionParameters state)) ->
  Forall2 (fun param item =>
             param_valid param /\
             param !! "parameter_name" = Some (fst item) /\
             exists v, param !! "parameter_default_value" = Some v /\
                       py_float v = Ok (snd item))
          (List.filter param_validb (selectedDistributionParameters state)) m.
Proof.
  intros Hm Hwf Hnd. unfold convert_distribution_parameters_to_valid_type in Hm.
  rewrite (distinct_names_mapping _ _ Hm Hwf Hnd).
  eapply Forall2_impl; [apply (valid_records_items _ Hwf (returned_parses _ _ _ Hm))|].
  intros param [k x] Hitem. by apply param_item_Some.
Qed.

(** X14. For well-formed records whose valid names are pairwise different,
    the order of the records decides the order of the entries only: for
    the same records in another order the validation returns the same
    entries in another order. *)
Theorem reordered_records_give_reordered_mapping (state state' : State)
    (m : list (pyval * spec_float)) :
  convert_distribution_parameters_to_valid_type state = Ok m ->
  Forall wf_param (selectedDistributionParameters state) ->
  NoDup (valid_names (selectedDistributionParameters state)) ->
  selectedDistributionParameters state' ≡ₚ selectedDistributionParameters state ->
  exists m',
    convert_distribution_parameters_to_valid_type state' = Ok m' /\ m' ≡ₚ m.
Proof.
  intros Hm Hwf Hnd Hperm. unfold convert_distribution_parameters_to_valid_type in *.
  assert (Hparses := returned_parses _ _ _ Hm).
  assert (Hwf' : Forall wf_param (selectedDistributionParameters state'))
    by by rewrite Hperm.
  assert (Hparses' : Forall (fun param => param_valid param -> param_parses param)
                            (selectedDistributionParameters state'))
    by by rewrite Hperm.
  assert (Hnd' : NoDup (valid_names (selectedDistributionParameters state'))).
  { unfold valid_names in *. by rewrite Hperm. }
  exists (omap param_item (selectedDistributionParameters state')). split.
  - rewrite (comprehension_ok _ _ Hwf' Hparses').
    rewrite store_all_fresh; [reflexivity | by apply param_items_str |].
    cbn [map app]. by rewrite (param_items_names _ Hparses' (wf_param_name _ Hwf')).
  - rewrite (distinct_names_mapping _ _ Hm Hwf Hnd). by rewrite Hperm.
Qed.

(* ===================================================================== *)
(** * The text of a value *)
(* ===================================================================== *)

Lemma has_char_app (c : ascii) (a b : string) :
  has_char c (a +:+ b) = has_char c a || has_char c b.
Proof. unfold has_char. rewrite chars_app. apply existsb_app. Qed.

Lemma format_float_digits_marked (ds : string) (decpt : Z) :
  has_char "." (format_float_digits ds decpt)
  || has_char "e" (format_float_digits ds decpt) = true.
Proof.
  assert (He : has_char "e" "e" = true) by reflexivity.
  assert (Hp : has_char "." "." = true) by reflexivity.
  assert (Hz : has_char "." ".0" = true) by reflexivity.
  assert (H0 : has_char "." "0." = true) by reflexivity.
  unfold format_float_digits.
  destruct ((decpt <=? -4) || (16 <? decpt)).
  - apply orb_true_iff. right. rewrite !has_char_app, He.
    by rewrite ?orb_true_l, ?orb_true_r.
  - apply orb_true_iff. left. destruct (decpt <=? 0).
    + by rewrite has_char_app, H0.
    + destruct (Z.of_nat (String.length ds) <=? decpt); rewrite !has_char_app.
      * rewrite Hz. by rewrite ?orb_true_l, ?orb_true_r.
      * rewrite Hp. by rewrite ?orb_true_l, ?orb_true_r.
Qed.

(** X15. A parameter line is the indentation, the key, an equals sign and
    the text of the value; the text of a finite value always has a decimal
    point or an exponent (zero is written [0.0], never [0]), the other
    values are written [inf], [-inf] and [nan]. *)
Theorem value_text_is_a_float_text (indentation : string) (key : pyval) (x : spec_float) :
  exists text,
    parameter_line indentation (key, x) = indentation +:+ py_str key +:+ "=" +:+ text /\
    match x with
    | S754_nan => text = "nan"
    | S754_infinity s => text = if s then "-inf" else "inf"
    | _ => has_char "." text || has_char "e" text = true
    end.
Proof.
  exists (float_repr x). split; [reflexivity|].
  destruct x as [s|s| |s m e]; [by destruct s | reflexivity | reflexivity |].
  cbn [float_repr]. destruct (float_digits m e) as [ds decpt].
  rewrite !has_char_app.
  pose proof (format_float_digits_marked ds decpt) as H.
  apply orb_true_iff in H as [->| ->]; by rewrite ?orb_true_l, ?orb_true_r.
Qed.

(* ===================================================================== *)
(** * The further theorems at the example states *)
(* ===================================================================== *)

Lemma missing_field_raises_KeyError_witness :
  convert_distribution_parameters_to_valid_type missing_field_state = Raise KeyError.
Proof.
  apply (missing_field_raises_KeyError missing_field_state
           [parameter "lambdaX" "1.0e-3" []] [parameter "muxpx" "0.0" []]
           record_without_errors).
  - reflexivity.
  - eexists. lookup.
  - left. lookup.
Defined.

Lemma float_exception_is_passed_on_witness :
  convert_distribution_parameters_to_valid_type none_value_state = Raise TypeError /\
  build_distribution_list none_value_state = Raise TypeError /\
  (forall checker, input_file checker none_value_state = Raise TypeError).
Proof.
  apply (float_exception_is_passed_on none_value_state
           [parameter "lambdaX" "1.0e-3" []] []
           (valid_record (PyStr "muxpx") PyNone) (PyStr "muxpx") PyNone TypeError).
  - reflexivity.
  - eexists. lookup.
  - lookup.
  - lookup.
  - lookup.
  - reflexivity.
Defined.

Lemma list_name_raises_TypeError_witness :
  convert_distribution_parameters_to_valid_type list_name_state = Raise TypeError.
Proof.
  apply (list_name_raises_TypeError list_name_state
           [parameter "lambdaX" "1.0e-3" []] []
           (valid_record (PyList [PyStr "muxpx"]) (PyStr "0.0"))
           [PyStr "muxpx"] (PyStr "0.0") float_zero).
  - reflexivity.
  - eexists. lookup.
  - lookup.
  - lookup.
  - lookup.
  - lookup.
Defined.

Lemma invalid_records_are_ignored_witness :
  Forall has_error_list (selectedDistributionParameters bare_invalid_state) /\
  convert_distribution_parameters_to_valid_type
    (with_parameters bare_invalid_state
       [parameter "lambdaX" "1.0e-3" []; parameter "muxpx" "0.0" []])
  = convert_distribution_parameters_to_valid_type bare_invalid_state.
Proof.
  assert (H : Forall has_error_list (selectedDistributionParameters bare_invalid_state)).
  { each_record; eexists; lookup. }
  split; [exact H|].
  exact (proj1 (invalid_records_are_ignored bare_invalid_state H)).
Defined.

Lemma record_added_at_the_end_witness :
  exists m,
    convert_distribution_parameters_to_valid_type waterbag_state = Ok m /\
    convert_distribution_parameters_to_valid_type
      (with_parameters waterbag_state
         (selectedDistributionParameters waterbag_state ++ [bare_invalid_record]))
    = Ok m.
Proof.
  eexists. split; [lookup|].
  apply (record_added_at_the_end waterbag_state _ bare_invalid_record).
  - lookup.
  - eexists. lookup.
  - intros H. vm_compute in H. discriminate H.
Defined.

Lemma mapping_size_witness :
  exists m,
    convert_distribution_parameters_to_valid_type duplicate_state = Ok m /\
    (length m <= 3)%nat.
Proof.
  eexists. split; [lookup|].
  apply (proj1 (mapping_size duplicate_state _ ltac:(lookup))).
Defined.

Lemma checker_exception_is_passed_on_witness :
  build_lattice_list strict_checker refused_element_state = Raise ValueError /\
  input_file strict_checker refused_element_state = Raise ValueError.
Proof.
  destruct (checker_exception_is_passed_on strict_checker refused_element_state
              [lattice_element "Quad"] [lattice_element "Drift"] (lattice_element "Bad")
              ["elements.Quad(ds=1.0)"] ValueError) as [Hl Hs].
  - reflexivity.
  - lookup.
  - eexists. lookup.
  - lookup.
  - split; [exact Hl|]. apply Hs. eexists. lookup.
Defined.

Lemma lattice_lists_concatenate_witness :
  build_lattice_list example_checker
    (with_lattice waterbag_state ([lattice_element "Quad"] ++ [lattice_element "Drift"]))
  = Ok ("lattice_configuration = [" +:+ nl +:+ "    "
        +:+ "elements.Quad(ds=1.0)" +:+ "," +:+ nl +:+ "    "
        +:+ "elements.Drift(ds=1.0)" +:+ nl +:+ "]").
Proof.
  apply (lattice_lists_concatenate example_checker waterbag_state).
  - discriminate.
  - discriminate.
  - lookup.
  - lookup.
Defined.

Lemma script_frame_witness :
  exists script,
    input_file example_checker waterbag_state = Ok script /\
    exists front, script = front +:+ "sim.finalize()" +:+ nl.
Proof.
  eexists. split; [lookup|].
  apply (script_frame example_checker waterbag_state). lookup.
Defined.

Lemma distinct_names_give_one_entry_each_witness :
  Forall wf_param (selectedDistributionParameters waterbag_state) /\
  NoDup (valid_names (selectedDistributionParameters waterbag_state)) /\
  exists m,
    convert_distribution_parameters_to_valid_type waterbag_state = Ok m /\
    length m = 2%nat.
Proof.
  assert (Hwf : Forall wf_param (selectedDistributionParameters waterbag_state))
    by well_formed.
  assert (Hnd : NoDup (valid_names (selectedDistributionParameters waterbag_state)))
    by different_names.
  split; [exact Hwf|]. split; [exact Hnd|].
  eexists. split; [lookup|].
  apply eq_sym, (Forall2_length _ _ _
    (distinct_names_give_one_entry_each waterbag_state _ ltac:(lookup) Hwf Hnd)).
Defined.

Lemma reordered_records_give_reordered_mapping_witness :
  exists m m',
    convert_distribution_parameters_to_valid_type waterbag_state = Ok m /\
    convert_distribution_parameters_to_valid_type reordered_waterbag_state = Ok m' /\
    m' ≡ₚ m.
Proof.
  assert (Hwf : Forall wf_param (selectedDistributionParameters waterbag_state))
    by well_formed.
  assert (Hnd : NoDup (valid_names (selectedDistributionParameters waterbag_state)))
    by different_names.
  eexists.
  destruct (reordered_records_give_reordered_mapping waterbag_state
              reordered_waterbag_state _ ltac:(lookup) Hwf Hnd) as (m' & Hm' & Hperm).
  - apply perm_swap.
  - exists m'. split; [lookup|]. split; assumption.
Defined.

(* ===================================================================== *)
(** * No valid record *)
(* ===================================================================== *)

Lemma comprehension_all_invalid (d : spec_float) (params : list (gmap string pyval)) :
  Forall (fun param => has_error_list param /\ ~ param_valid param) params ->
  forall acc, comprehension d acc params = Ok acc.
Proof.
  induction 1 as [|param rest [[msg Hmsg] Hinvalid] _ IH]; intros acc; [reflexivity|].
  cbn [comprehension].
  rewrite comprehension_step_valid_only, filter_expr_spec, Hmsg, bind_Ok.
  destruct (py_eqb msg (PyList [])) eqn:Eb.
  - apply py_eqb_empty_list in Eb as ->. by destruct Hinvalid.
  - rewrite bind_Ok. apply IH.
Qed.

(** X16. When no record passed validation (each has a non-empty list of
    error messages, or there is no record at all), the validation returns
    the empty mapping and the constructor call is rendered with a lone
    comma between its parentheses, inside [**twiss(...)] for the type
    ["Twiss"]. *)
Theorem no_valid_record_gives_lone_comma (state : State) :
  Forall (fun param => has_error_list param /\ ~ param_valid param)
         (selectedDistributionParameters state) ->
  convert_distribution_parameters_to_valid_type state = Ok [] /\
  build_distribution_list state =
    Ok (if is_twiss state
        then "distr = distribution." +:+ py_str (selectedDistribution state) +:+ "(" +:+ nl
             +:+ "    **twiss(" +:+ nl +:+ "," +:+ nl +:+ "    )" +:+ nl +:+ ")"
        else "distr = distribution." +:+ py_str (selectedDistribution state) +:+ "(" +:+ nl
             +:+ "," +:+ nl +:+ ")").
Proof.
  intros Hall.
  assert (H : convert_distribution_parameters_to_valid_type state = Ok [])
    by by apply comprehension_all_invalid.
  split; [exact H | by apply empty_mapping_text].
Qed.

Lemma no_valid_record_gives_lone_comma_witness :
  Forall (fun param => has_error_list param /\ ~ param_valid param)
         (selectedDistributionParameters all_invalid_state) /\
  build_distribution_list all_invalid_state
  = Ok ("distr = distribution.Waterbag(" +:+ nl +:+ "," +:+ nl +:+ ")").
Proof.
  assert (H : Forall (fun param => has_error_list param /\ ~ param_valid param)
                     (selectedDistributionParameters all_invalid_state)).
  { each_record;
      (split; [eexists; lookup | intros Hv; vm_compute in Hv; discriminate Hv]). }
  split; [exact H|].
  exact (proj2 (no_valid_record_gives_lone_comma all_invalid_state H)).
Defined.
